(** * Verification of [src/assistant/utils.py]

    A shallow embedding of [deduplicate_and_format_sources] and
    [format_sources], the two formatting routines of the research
    assistant, and the properties its specification states about them.

    Python values are dynamically typed, so the embedding works over a
    small universe of values ([pyval]); exceptions are values of [res];
    the text that [print] writes is returned next to the result.  A second
    embedding, [Store], keeps lists and dicts as objects in a store, for
    what the code does to its input; [store_refines] relates the two. *)

From Stdlib Require Import ZArith String Ascii DecimalString.
From stdpp Require Import list gmap.

Local Open Scope Z_scope.
#[local] Set Warnings "-register-all".

(** ** Python strings *)

(** A Python [str] is a sequence of Unicode code points; [len] and slicing
    count code points. *)
Definition pychar := N.
Definition pystr := list pychar.

(** The string literals of the source are ASCII. *)
Definition lit (s : string) : pystr := N_of_ascii <$> list_ascii_of_string s.
Arguments lit s%_string.

(** ["\n"] *)
Definition nl : pystr := [10%N].

(** The characters [str.strip()] removes: those for which [str.isspace]
    holds (CPython's [_PyUnicode_IsWhitespace]). *)
Definition is_whitespace (c : pychar) : bool :=
  ((9 <=? c) && (c <=? 13) || (28 <=? c) && (c <=? 32)
   || (c =? 133) || (c =? 160) || (c =? 5760)
   || (8192 <=? c) && (c <=? 8202)
   || (c =? 8232) || (c =? 8233) || (c =? 8239) || (c =? 8287)
   || (c =? 12288))%N.

Fixpoint lstrip (s : pystr) : pystr :=
  match s with
  | [] => []
  | c :: s' => if is_whitespace c then lstrip s' else s
  end.

Definition rstrip (s : pystr) : pystr := reverse (lstrip (reverse s)).

(** [s.strip()] *)
Definition strip (s : pystr) : pystr := lstrip (rstrip s).

(** [s[:k]], with Python's reading of a negative bound. *)
Definition slice_to (A : Type) (s : list A) (k : Z) : list A :=
  if 0 <=? k then take (Z.to_nat k) s
  else take (Z.to_nat (Z.of_nat (length s) + k)) s.
Arguments slice_to {A} s k.

(** [str(z)] for an integer. *)
Definition str_of_int (z : Z) : pystr := lit (NilZero.string_of_int (Z.to_int z)).

(** ** Python values and results *)

(** The values a search response is made of.  A [dict] has string keys,
    each once, and keeps its insertion order. *)
Inductive pyval : Type :=
| VNone
| VInt (z : Z)
| VStr (s : pystr)
| VList (l : list pyval)
| VDict (d : list (pystr * pyval)).

Inductive exn : Type := ValueError | KeyError | TypeError | AttributeError.

(** The result of running Python code: a value, an exception, or
    [OutOfModel] where the outcome depends on [repr] of a container or on
    the interpreter's version, neither of which is modelled. *)
Inductive res (A : Type) : Type :=
| Ok (a : A)
| Raise (e : exn)
| OutOfModel.
Arguments Ok {A} a.
Arguments Raise {A} e.
Arguments OutOfModel {A}.

Definition bind {A B : Type} (m : res A) (k : A -> res B) : res B :=
  match m with
  | Ok a => k a
  | Raise e => Raise e
  | OutOfModel => OutOfModel
  end.

Notation "x <- m ;; k" := (bind m (fun x => k))
  (at level 100, m at next level, right associativity).

(** Dictionary keys: the hashable values. *)
Inductive pykey : Type := KNone | KInt (z : Z) | KStr (s : pystr).

#[global] Instance pykey_eq_dec : EqDecision pykey.
Proof. solve_decision. Defined.

(** Hashing a value, as a [dict] does with a key: lists and dicts are
    unhashable. *)
Definition to_key (v : pyval) : res pykey :=
  match v with
  | VNone => Ok KNone
  | VInt z => Ok (KInt z)
  | VStr s => Ok (KStr s)
  | VList _ | VDict _ => Raise TypeError
  end.

Fixpoint lookup_key (key : pystr) (d : list (pystr * pyval)) : option pyval :=
  match d with
  | [] => None
  | (k, v) :: d' => if decide (k = key) then Some v else lookup_key key d'
  end.

(** [v[key]] for a string [key]. *)
Definition subscript (v : pyval) (key : pystr) : res pyval :=
  match v with
  | VDict d =>
      match lookup_key key d with
      | Some x => Ok x
      | None => Raise KeyError
      end
  | _ => Raise TypeError
  end.

(** [v.get(key, default)] *)
Definition dict_get (v : pyval) (key : pystr) (default : pyval) : res pyval :=
  match v with
  | VDict d =>
      match lookup_key key d with
      | Some x => Ok x
      | None => Ok default
      end
  | _ => Raise AttributeError
  end.

(** [isinstance(v, dict) and key in v] *)
Definition is_dict_with (key : pystr) (v : pyval) : bool :=
  match v with
  | VDict d => bool_decide (is_Some (lookup_key key d))
  | _ => false
  end.

(** The items [for x in v] and [list.extend(v)] go through. *)
Definition py_iter (v : pyval) : res (list pyval) :=
  match v with
  | VList l => Ok l
  | VStr s => Ok ((fun c => VStr [c]) <$> s)
  | VDict d => Ok ((fun kv => VStr kv.1) <$> d)
  | VNone | VInt _ => Raise TypeError
  end.

(** [len(v)] *)
Definition py_len (v : pyval) : res Z :=
  match v with
  | VStr s => Ok (Z.of_nat (length s))
  | VList l => Ok (Z.of_nat (length l))
  | VDict d => Ok (Z.of_nat (length d))
  | VNone | VInt _ => Raise TypeError
  end.

(** [f"{v}"], that is [str(v)]. *)
Definition py_str (v : pyval) : res pystr :=
  match v with
  | VStr s => Ok s
  | VNone => Ok (lit "None")
  | VInt z => Ok (str_of_int z)
  | VList _ | VDict _ => OutOfModel
  end.

(** [v[:k] + "... [truncated]"] *)
Definition truncate (v : pyval) (k : Z) : res pyval :=
  match v with
  | VStr s => Ok (VStr (slice_to s k ++ lit "... [truncated]"))
  | VList _ => Raise TypeError
  | VDict _ => OutOfModel
  | VNone | VInt _ => Raise TypeError
  end.

(** ** Output

    [print] is the only effect of the code.  A computation that may print
    returns the lines it printed, in order, next to its result; what was
    printed before an exception stays printed. *)
Definition io (A : Type) : Type := list pystr * res A.

Definition lift {A : Type} (r : res A) : io A := ([], r).

Definition ret {A : Type} (a : A) : io A := ([], Ok a).

Definition print (line : pystr) : io unit := ([line], Ok tt).

Definition io_bind {A B : Type} (m : io A) (k : A -> io B) : io B :=
  match m with
  | (out, Ok a) => let '(out', r) := k a in (out ++ out', r)
  | (out, Raise e) => (out, Raise e)
  | (out, OutOfModel) => (out, OutOfModel)
  end.

Notation "x <~ m ;; k" := (io_bind m (fun x => k))
  (at level 100, m at next level, right associativity).

(** ** [deduplicate_and_format_sources] *)

(** The loop [for response in search_response] that fills [sources_list]. *)
Fixpoint extend_loop (responses : list pyval) (sources_list : list pyval)
  : res (list pyval) :=
  match responses with
  | [] => Ok sources_list
  | response :: responses' =>
      if is_dict_with (lit "results") response then
        results <- subscript response (lit "results") ;;
        items <- py_iter results ;;
        extend_loop responses' (sources_list ++ items)
      else
        items <- py_iter response ;;
        extend_loop responses' (sources_list ++ items)
  end.

(** "Convert input to list of results": the value bound to [sources_list]. *)
Definition sources_list_of (search_response : pyval) : res pyval :=
  match search_response with
  | VDict _ => subscript search_response (lit "results")
  | VList responses =>
      sources_list <- extend_loop responses [] ;;
      Ok (VList sources_list)
  | _ => Raise ValueError
  end.

(** [key not in unique_sources] is the negation of this. *)
Definition contains (key : pykey) (unique_sources : list (pykey * pyval)) : bool :=
  bool_decide (key ∈ unique_sources.*1).

(** "Deduplicate by URL": the loop [for source in sources_list].  A new key
    of a [dict] goes to the end of its iteration order. *)
Fixpoint dedup_loop (sources : list pyval) (unique_sources : list (pykey * pyval))
  : res (list (pykey * pyval)) :=
  match sources with
  | [] => Ok unique_sources
  | source :: sources' =>
      url <- subscript source (lit "url") ;;
      key <- to_key url ;;
      if contains key unique_sources then dedup_loop sources' unique_sources
      else dedup_loop sources' (unique_sources ++ [(key, source)])
  end.

(** [f"{source[field]}"] *)
Definition field_str (source : pyval) (field : pystr) : res pystr :=
  v <- subscript source field ;; py_str v.

(** The body of [if include_raw_content:]; its value is the text appended
    to [formatted_text]. *)
Definition raw_content_block (source : pyval) (max_tokens_per_source : Z)
  : io pystr :=
  let char_limit := max_tokens_per_source * 4 in
  raw_content <~ lift (dict_get source (lit "raw_content") (VStr [])) ;;
  raw_content <~
    match raw_content with
    | VNone =>
        url <~ lift (field_str source (lit "url")) ;;
        _ <~ print (lit "Warning: No raw_content found for source " ++ url) ;;
        ret (VStr [])
    | _ => ret raw_content
    end ;;
  len <~ lift (py_len raw_content) ;;
  raw_content <~
    lift (if char_limit <? len then truncate raw_content char_limit
          else Ok raw_content) ;;
  raw <~ lift (py_str raw_content) ;;
  ret (lit "Full source content limited to " ++ str_of_int max_tokens_per_source
       ++ lit " tokens: " ++ raw ++ nl ++ nl).

(** The body of the loop over [unique_sources.values()]: the block of one
    source. *)
Definition source_block (source : pyval) (max_tokens_per_source : Z)
    (include_raw_content : bool) : io pystr :=
  title <~ lift (field_str source (lit "title")) ;;
  url <~ lift (field_str source (lit "url")) ;;
  content <~ lift (field_str source (lit "content")) ;;
  let text :=
    lit "Source " ++ title ++ lit ":" ++ nl ++ lit "===" ++ nl
    ++ lit "URL: " ++ url ++ nl ++ lit "===" ++ nl
    ++ lit "Most relevant content from source: " ++ content ++ nl
    ++ lit "===" ++ nl in
  if include_raw_content then
    raw <~ raw_content_block source max_tokens_per_source ;;
    ret (text ++ raw)
  else ret text.

(** "Format output": the loop over [unique_sources.values()]. *)
Fixpoint format_loop (sources : list pyval) (max_tokens_per_source : Z)
    (include_raw_content : bool) (formatted_text : pystr) : io pystr :=
  match sources with
  | [] => ret formatted_text
  | source :: sources' =>
      block <~ source_block source max_tokens_per_source include_raw_content ;;
      format_loop sources' max_tokens_per_source include_raw_content
        (formatted_text ++ block)
  end.

Definition deduplicate_and_format_sources (search_response : pyval)
    (max_tokens_per_source : Z) (include_raw_content : bool) : io pystr :=
  sources_list <~ lift (sources_list_of search_response) ;;
  unique_sources <~
    lift (sources <- py_iter sources_list ;; dedup_loop sources []) ;;
  formatted_text <~
    format_loop unique_sources.*2 max_tokens_per_source include_raw_content
      (lit "Sources:" ++ nl ++ nl) ;;
  ret (strip formatted_text).

(** ** [format_sources] *)

(** [f"* {source['title']} : {source['url']}"] *)
Definition bullet (source : pyval) : res pystr :=
  title <- field_str source (lit "title") ;;
  url <- field_str source (lit "url") ;;
  Ok (lit "* " ++ title ++ lit " : " ++ url).

Fixpoint bullets (sources : list pyval) : res (list pystr) :=
  match sources with
  | [] => Ok []
  | source :: sources' =>
      line <- bullet source ;;
      lines <- bullets sources' ;;
      Ok (line :: lines)
  end.

(** [sep.join(lines)] *)
Fixpoint join (sep : pystr) (lines : list pystr) : pystr :=
  match lines with
  | [] => []
  | [line] => line
  | line :: lines' => line ++ sep ++ join sep lines'
  end.

Definition format_sources (search_results : pyval) : res pystr :=
  results <- subscript search_results (lit "results") ;;
  sources <- py_iter results ;;
  lines <- bullets sources ;;
  Ok (join nl lines).

(** ** Building inputs *)

Definition str (s : string) : pyval := VStr (lit s).
Arguments str s%_string.

Definition record (title url content : pyval) : pyval :=
  VDict [(lit "title", title); (lit "url", url); (lit "content", content)].

Definition record_raw (title url content raw_content : pyval) : pyval :=
  VDict [(lit "title", title); (lit "url", url); (lit "content", content);
         (lit "raw_content", raw_content)].

Definition collection (records : list pyval) : pyval :=
  VDict [(lit "results", VList records)].

(** ** Well-formed inputs *)

Definition is_str (v : option pyval) : bool :=
  match v with
  | Some (VStr _) => true
  | _ => false
  end.

(** A Source Record: a mapping with string [title], [url] and [content],
    and a [raw_content] that is a string, null or absent. *)
Definition well_formed (source : pyval) : bool :=
  match source with
  | VDict d =>
      is_str (lookup_key (lit "title") d) && is_str (lookup_key (lit "url") d)
      && is_str (lookup_key (lit "content") d)
      && match lookup_key (lit "raw_content") d with
         | None | Some VNone | Some (VStr _) => true
         | _ => false
         end
  | _ => false
  end.

(** A record set: a mapping whose [results] is a list of Source Records. *)
Definition record_set (v : pyval) : bool :=
  match v with
  | VDict d =>
      match lookup_key (lit "results") d with
      | Some (VList records) => forallb well_formed records
      | _ => false
      end
  | _ => false
  end.

(** The input shapes the code accepts: a record set, or a list whose
    elements are record sets or bare lists of Source Records. *)
Definition valid_input (search_response : pyval) : bool :=
  match search_response with
  | VDict _ => record_set search_response
  | VList responses =>
      forallb (fun response =>
                 match response with
                 | VDict _ => record_set response
                 | VList records => forallb well_formed records
                 | _ => false
                 end) responses
  | _ => false
  end.

(** The value of [unique_sources.values()] on a given input. *)
Definition unique_sources_of (search_response : pyval) : res (list pyval) :=
  sources_list <- sources_list_of search_response ;;
  sources <- py_iter sources_list ;;
  unique_sources <- dedup_loop sources [] ;;
  Ok unique_sources.*2.

(** The key under which a source is deduplicated. *)
Definition key_of (source : pyval) : res pykey :=
  url <- subscript source (lit "url") ;; to_key url.

(** The three lines every block starts with. *)
Definition block_head (title url content : pystr) : pystr :=
  lit "Source " ++ title ++ lit ":" ++ nl ++ lit "===" ++ nl
  ++ lit "URL: " ++ url ++ nl ++ lit "===" ++ nl
  ++ lit "Most relevant content from source: " ++ content ++ nl
  ++ lit "===" ++ nl.

(** The labelled block of the raw text. *)
Definition raw_block (max_tokens_per_source : Z) (raw : pystr) : pystr :=
  lit "Full source content limited to " ++ str_of_int max_tokens_per_source
  ++ lit " tokens: " ++ raw ++ nl ++ nl.

(** What the code makes of a raw text of type [str]. *)
Definition clipped (max_tokens_per_source : Z) (raw : pystr) : pystr :=
  if max_tokens_per_source * 4 <? Z.of_nat (length raw)
  then slice_to raw (max_tokens_per_source * 4) ++ lit "... [truncated]"
  else raw.

(** ** Shapes of the input, as the specification words them *)

(** "neither a mapping nor a sequence" is the negation of this. *)
Definition mapping_or_sequence (search_response : pyval) : bool :=
  match search_response with
  | VDict _ | VList _ => true
  | _ => false
  end.

(** "either a mapping with key [results] or a sequence of such mappings" *)
Definition mapping_with_results_or_sequence_of_such (search_response : pyval)
  : bool :=
  match search_response with
  | VDict _ => is_dict_with (lit "results") search_response
  | VList responses => forallb (is_dict_with (lit "results")) responses
  | _ => false
  end.

(** The title and url of a record whose [title] and [url] are strings. *)
Definition title_url_of (source : pyval) : option (pystr * pystr) :=
  match source with
  | VDict d =>
      match lookup_key (lit "title") d, lookup_key (lit "url") d with
      | Some (VStr title), Some (VStr url) => Some (title, url)
      | _, _ => None
      end
  | _ => None
  end.

(** The line [* <title> : <url>]. *)
Definition bullet_line (title_url : pystr * pystr) : pystr :=
  lit "* " ++ title_url.1 ++ lit " : " ++ title_url.2.

(** ** Deduplication, as the specification words it *)

(** A list of records with their urls, "minus later duplicates by url":
    the first record stays, every later record with its url goes, and so on
    down the list. *)
Fixpoint minus_later_duplicates (l : list (pykey * pyval)) : list (pykey * pyval) :=
  match l with
  | [] => []
  | kr :: l' => kr :: filter (fun x => x.1 <> kr.1) (minus_later_duplicates l')
  end.

(** Not the exception of the [raise] statement. *)
Definition quiet {A : Type} (r : res A) : Prop := r <> Raise ValueError.

(** The warning a well-formed source is due: one line naming its url when
    its [raw_content] is null, nothing otherwise. *)
Definition warning_of (source : pyval) : list pystr :=
  match source with
  | VDict d =>
      match lookup_key (lit "raw_content") d, lookup_key (lit "url") d with
      | Some VNone, Some (VStr url) =>
          [lit "Warning: No raw_content found for source " ++ url]
      | _, _ => []
      end
  | _ => []
  end.

(** The text before the raw content of a single source, for a budget of
    10 tokens. *)
Definition single_head (title url content : pystr) : pystr :=
  lit "Sources:" ++ nl ++ nl ++ block_head title url content
  ++ lit "Full source content limited to 10 tokens: ".

(** Induction on values, through the lists and dicts they hold. *)
Section pyval_ind.
Variable P : pyval -> Prop.
Hypothesis HNone : P VNone.
Hypothesis HInt : forall z, P (VInt z).
Hypothesis HStr : forall s, P (VStr s).
Hypothesis HList : forall l, Forall P l -> P (VList l).
Hypothesis HDict : forall d, Forall (fun kv => P kv.2) d -> P (VDict d).

Fixpoint pyval_ind' (v : pyval) : P v :=
  match v with
  | VNone => HNone
  | VInt z => HInt z
  | VStr s => HStr s
  | VList l =>
      HList l
        ((fix go (l : list pyval) : Forall P l :=
            match l with
            | [] => Forall_nil_2 P
            | x :: l' => Forall_cons_2 P x l' (pyval_ind' x) (go l')
            end) l)
  | VDict d =>
      HDict d
        ((fix go (d : list (pystr * pyval)) : Forall (fun kv => P kv.2) d :=
            match d with
            | [] => Forall_nil_2 _
            | kv :: d' =>
                Forall_cons_2 (fun kv => P kv.2) kv d' (pyval_ind' kv.2) (go d')
            end) d)
  end.
End pyval_ind.

(** ** The same code over a store of mutable objects

    Python lists and dicts are objects with an identity: the input of
    [deduplicate_and_format_sources] is a reference, [sources_list] may
    alias the input's [results] list, and [list.extend] and item assignment
    update an object in place.  [Store] repeats the embedding with values
    that refer to objects in a store, so that what the code does to its
    input can be stated.

    The loops go through the items their iterable has when the loop starts;
    their bodies update [sources_list] and [unique_sources] only. *)
Module Store.

Definition loc := nat.

(** A value: atomic, or a reference to a list or dict object. *)
Inductive val : Type :=
| VNone
| VInt (z : Z)
| VStr (s : pystr)
| VRef (l : loc).

Inductive obj : Type :=
| OList (items : list val)
| ODict (d : list (pykey * val)).

Definition store := gmap loc obj.

(** A computation reads and updates the store, prints, and returns or
    raises. *)
Definition M (A : Type) : Type := store -> store * io A.

Definition ret {A : Type} (a : A) : M A := fun h => (h, ([], Ok a)).

Definition bind {A B : Type} (m : M A) (k : A -> M B) : M B :=
  fun h =>
    match m h with
    | (h', (out, Ok a)) =>
        let '(h'', (out', r)) := k a h' in (h'', (out ++ out', r))
    | (h', (out, Raise e)) => (h', (out, Raise e))
    | (h', (out, OutOfModel)) => (h', (out, OutOfModel))
    end.

Notation "x <== m ;; k" := (bind m (fun x => k))
  (at level 100, m at next level, right associativity).

(** An expression that only reads the store. *)
Definition read {A : Type} (f : store -> res A) : M A :=
  fun h => (h, ([], f h)).

Definition print (line : pystr) : M unit := fun h => (h, ([line], Ok tt)).

(** A new object. *)
Definition alloc (o : obj) : M loc :=
  fun h => let l := fresh (dom h) in (<[l := o]> h, ([], Ok l)).

Fixpoint lookup_key (key : pykey) (d : list (pykey * val)) : option val :=
  match d with
  | [] => None
  | (k, v) :: d' => if decide (k = key) then Some v else lookup_key key d'
  end.

(** [d[key] = v]: the value of a present key is replaced in place, a new
    key goes to the end. *)
Fixpoint set_key (key : pykey) (v : val) (d : list (pykey * val))
  : list (pykey * val) :=
  match d with
  | [] => [(key, v)]
  | (k, x) :: d' =>
      if decide (k = key) then (k, v) :: d' else (k, x) :: set_key key v d'
  end.

(** [l.extend(items)] *)
Definition extend (l : loc) (items : list val) : M unit :=
  fun h =>
    match h !! l with
    | Some (OList old) => (<[l := OList (old ++ items)]> h, ([], Ok tt))
    | _ => (h, ([], OutOfModel))
    end.

(** [l[key] = v] *)
Definition setitem (l : loc) (key : pykey) (v : val) : M unit :=
  fun h =>
    match h !! l with
    | Some (ODict d) => (<[l := ODict (set_key key v d)]> h, ([], Ok tt))
    | _ => (h, ([], OutOfModel))
    end.

Definition of_key (key : pykey) : val :=
  match key with
  | KNone => VNone
  | KInt z => VInt z
  | KStr s => VStr s
  end.

(** A reference to no object does not occur in a Python program. *)
Definition deref (l : loc) (h : store) : res obj :=
  match h !! l with
  | Some o => Ok o
  | None => OutOfModel
  end.

Definition to_key (v : val) (h : store) : res pykey :=
  match v with
  | VNone => Ok KNone
  | VInt z => Ok (KInt z)
  | VStr s => Ok (KStr s)
  | VRef l => _ <- deref l h ;; Raise TypeError
  end.

Definition subscript (v : val) (key : pystr) (h : store) : res val :=
  match v with
  | VRef l =>
      o <- deref l h ;;
      match o with
      | ODict d =>
          match lookup_key (KStr key) d with
          | Some x => Ok x
          | None => Raise KeyError
          end
      | OList _ => Raise TypeError
      end
  | _ => Raise TypeError
  end.

Definition dict_get (v : val) (key : pystr) (default : val) (h : store)
  : res val :=
  match v with
  | VRef l =>
      o <- deref l h ;;
      match o with
      | ODict d =>
          match lookup_key (KStr key) d with
          | Some x => Ok x
          | None => Ok default
          end
      | OList _ => Raise AttributeError
      end
  | _ => Raise AttributeError
  end.

Definition is_dict_with (key : pystr) (v : val) (h : store) : res bool :=
  match v with
  | VRef l =>
      o <- deref l h ;;
      match o with
      | ODict d => Ok (bool_decide (is_Some (lookup_key (KStr key) d)))
      | OList _ => Ok false
      end
  | _ => Ok false
  end.

Definition py_iter (v : val) (h : store) : res (list val) :=
  match v with
  | VRef l =>
      o <- deref l h ;;
      match o with
      | OList items => Ok items
      | ODict d => Ok (of_key <$> d.*1)
      end
  | VStr s => Ok ((fun c => VStr [c]) <$> s)
  | VNone | VInt _ => Raise TypeError
  end.

Definition py_len (v : val) (h : store) : res Z :=
  match v with
  | VRef l =>
      o <- deref l h ;;
      match o with
      | OList items => Ok (Z.of_nat (length items))
      | ODict d => Ok (Z.of_nat (length d))
      end
  | VStr s => Ok (Z.of_nat (length s))
  | VNone | VInt _ => Raise TypeError
  end.

Definition py_str (v : val) : res pystr :=
  match v with
  | VStr s => Ok s
  | VNone => Ok (lit "None")
  | VInt z => Ok (str_of_int z)
  | VRef _ => OutOfModel
  end.

Definition truncate (v : val) (k : Z) (h : store) : res val :=
  match v with
  | VStr s => Ok (VStr (slice_to s k ++ lit "... [truncated]"))
  | VRef l =>
      o <- deref l h ;;
      match o with
      | OList _ => Raise TypeError
      | ODict _ => OutOfModel
      end
  | VNone | VInt _ => Raise TypeError
  end.

(** [key in unique_sources] *)
Definition contains (key : pykey) (unique_sources : loc) (h : store) : res bool :=
  o <- deref unique_sources h ;;
  match o with
  | ODict d => Ok (bool_decide (is_Some (lookup_key key d)))
  | OList _ => OutOfModel
  end.

(** [unique_sources.values()] *)
Definition values (unique_sources : loc) (h : store) : res (list val) :=
  o <- deref unique_sources h ;;
  match o with
  | ODict d => Ok d.*2
  | OList _ => OutOfModel
  end.

Fixpoint extend_loop (responses : list val) (sources_list : loc) : M unit :=
  match responses with
  | [] => ret tt
  | response :: responses' =>
      with_results <== read (is_dict_with (lit "results") response) ;;
      if with_results : bool then
        results <== read (subscript response (lit "results")) ;;
        items <== read (py_iter results) ;;
        _ <== extend sources_list items ;;
        extend_loop responses' sources_list
      else
        items <== read (py_iter response) ;;
        _ <== extend sources_list items ;;
        extend_loop responses' sources_list
  end.

Definition sources_list_of (search_response : val) : M val :=
  match search_response with
  | VRef l =>
      o <== read (deref l) ;;
      match o with
      | ODict _ => read (subscript search_response (lit "results"))
      | OList responses =>
          sources_list <== alloc (OList []) ;;
          _ <== extend_loop responses sources_list ;;
          ret (VRef sources_list)
      end
  | _ => read (fun _ => Raise ValueError)
  end.

Fixpoint dedup_loop (sources : list val) (unique_sources : loc) : M unit :=
  match sources with
  | [] => ret tt
  | source :: sources' =>
      url <== read (subscript source (lit "url")) ;;
      key <== read (to_key url) ;;
      present <== read (contains key unique_sources) ;;
      if present : bool then dedup_loop sources' unique_sources
      else
        _ <== setitem unique_sources key source ;;
        dedup_loop sources' unique_sources
  end.

Definition field_str (source : val) (field : pystr) : M pystr :=
  read (fun h => v <- subscript source field h ;; py_str v).

Definition raw_content_block (source : val) (max_tokens_per_source : Z)
  : M pystr :=
  let char_limit := max_tokens_per_source * 4 in
  raw_content <== read (dict_get source (lit "raw_content") (VStr [])) ;;
  raw_content <==
    match raw_content with
    | VNone =>
        url <== field_str source (lit "url") ;;
        _ <== print (lit "Warning: No raw_content found for source " ++ url) ;;
        ret (VStr [])
    | _ => ret raw_content
    end ;;
  len <== read (py_len raw_content) ;;
  raw_content <==
    read (fun h => if char_limit <? len then truncate raw_content char_limit h
                   else Ok raw_content) ;;
  raw <== read (fun _ => py_str raw_content) ;;
  ret (lit "Full source content limited to " ++ str_of_int max_tokens_per_source
       ++ lit " tokens: " ++ raw ++ nl ++ nl).

Definition source_block (source : val) (max_tokens_per_source : Z)
    (include_raw_content : bool) : M pystr :=
  title <== field_str source (lit "title") ;;
  url <== field_str source (lit "url") ;;
  content <== field_str source (lit "content") ;;
  let text :=
    lit "Source " ++ title ++ lit ":" ++ nl ++ lit "===" ++ nl
    ++ lit "URL: " ++ url ++ nl ++ lit "===" ++ nl
    ++ lit "Most relevant content from source: " ++ content ++ nl
    ++ lit "===" ++ nl in
  if include_raw_content then
    raw <== raw_content_block source max_tokens_per_source ;;
    ret (text ++ raw)
  else ret text.

Fixpoint format_loop (sources : list val) (max_tokens_per_source : Z)
    (include_raw_content : bool) (formatted_text : pystr) : M pystr :=
  match sources with
  | [] => ret formatted_text
  | source :: sources' =>
      block <== source_block source max_tokens_per_source include_raw_content ;;
      format_loop sources' max_tokens_per_source include_raw_content
        (formatted_text ++ block)
  end.

Definition deduplicate_and_format_sources (search_response : val)
    (max_tokens_per_source : Z) (include_raw_content : bool) : M pystr :=
  sources_list <== sources_list_of search_response ;;
  unique_sources <== alloc (ODict []) ;;
  sources <== read (py_iter sources_list) ;;
  _ <== dedup_loop sources unique_sources ;;
  sources <== read (values unique_sources) ;;
  formatted_text <==
    format_loop sources max_tokens_per_source include_raw_content
      (lit "Sources:" ++ nl ++ nl) ;;
  ret (strip formatted_text).

(** A computation leaves the objects of [h0] as they are, and what it
    returns satisfies [Q]. *)
Definition keeps {A : Type} (h0 : store) (m : M A) (Q : A -> Prop) : Prop :=
  forall h,
    h0 ⊆ h ->
    h0 ⊆ (m h).1 /\ forall out a, (m h).2 = (out, Ok a) -> Q a.

End Store.

(** A store with the specification's example as its input: two records
    with the same url at 0 and 1, their list at 2, the collection at 3. *)
Definition example_record (title url content : string) : Store.obj :=
  Store.ODict [(KStr (lit "title"), Store.VStr (lit title));
               (KStr (lit "url"), Store.VStr (lit url));
               (KStr (lit "content"), Store.VStr (lit content))].

Definition example_store : Store.store :=
  <[3%nat := Store.ODict [(KStr (lit "results"), Store.VRef 2%nat)]]>
    (<[2%nat := Store.OList [Store.VRef 0%nat; Store.VRef 1%nat]]>
       (<[1%nat := example_record "B" "u1" "c2"]>
          (<[0%nat := example_record "A" "u1" "c1"]> ∅))).

(** ** Stores and plain values

    [represents h pv v]: in the store [h] the value [v] stands for the
    plain value [pv], its references followed. *)
Fixpoint represents (h : Store.store) (pv : pyval) (v : Store.val) : Prop :=
  match pv with
  | VNone => v = Store.VNone
  | VInt z => v = Store.VInt z
  | VStr s => v = Store.VStr s
  | VList pvs =>
      exists l items,
        v = Store.VRef l /\ h !! l = Some (Store.OList items)
        /\ (fix all (pvs : list pyval) (items : list Store.val) : Prop :=
              match pvs, items with
              | [], [] => True
              | pv :: pvs', x :: items' => represents h pv x /\ all pvs' items'
              | _, _ => False
              end) pvs items
  | VDict d =>
      exists l od,
        v = Store.VRef l /\ h !! l = Some (Store.ODict od)
        /\ (fix all (d : list (pystr * pyval)) (od : list (pykey * Store.val))
              : Prop :=
              match d, od with
              | [], [] => True
              | (k, pv) :: d', (k', x) :: od' =>
                  k' = KStr k /\ represents h pv x /\ all d' od'
              | _, _ => False
              end) d od
  end.

(** Results that agree: values related by [R], or the same exception. *)
Definition res_rel {A B : Type} (R : A -> B -> Prop) (r : res A) (r' : res B)
  : Prop :=
  match r, r' with
  | Ok a, Ok b => R a b
  | Raise e, Raise e' => e = e'
  | OutOfModel, OutOfModel => True
  | _, _ => False
  end.

(** A computation over the store that leaves [h] as it is and does what
    the computation [y] over plain values does. *)
Definition pure_rel {A B : Type} (R : B -> A -> Prop)
    (x : Store.store * io A) (h : Store.store) (y : io B) : Prop :=
  x.1 = h /\ x.2.1 = y.1 /\ res_rel R y.2 x.2.2.

(** What a loop that fills an object of its own comes to: the result of
    [r] over plain values, and when that is a value, an object at [l]
    that [P] relates to it, in a store that extends [h0]. *)
Definition fills {A : Type} (h0 : Store.store) (l : Store.loc)
    (P : A -> Store.obj -> Prop) (r : res A) (x : Store.store * io unit) : Prop :=
  match r with
  | Ok a =>
      exists o, x.2 = ([], Ok tt) /\ h0 ⊆ x.1 /\ x.1 !! l = Some o /\ P a o
  | Raise e => x.2 = ([], Raise e)
  | OutOfModel => x.2 = ([], OutOfModel)
  end.

(** A list object for [sources_list], a dict object for [unique_sources]. *)
Definition list_rel (h0 : Store.store) (pacc : list pyval) (o : Store.obj) : Prop :=
  exists acc, o = Store.OList acc /\ Forall2 (represents h0) pacc acc.

Definition dict_rel (h0 : Store.store) (pacc : list (pykey * pyval))
    (o : Store.obj) : Prop :=
  exists ud,
    o = Store.ODict ud
    /\ Forall2 (fun pk k => k.1 = pk.1 /\ represents h0 pk.2 k.2) pacc ud.

(** ** [read_pdf]

    [PdfReader] and [extract_text] belong to the PyPDF2 library: what they
    give for a file and for a page is a parameter here. *)
Section read_pdf.
Variable page : Type.
Variable PdfReader : pystr -> res (list page).
Variable extract_text : page -> res pystr.

(** The loop [for page in reader.pages]. *)
Fixpoint read_pdf_loop (pages : list page) (page_number : Z) (pdf_text : pystr)
  : res pystr :=
  match pages with
  | [] => Ok pdf_text
  | p :: pages' =>
      let page_number := page_number + 1 in
      text <- extract_text p ;;
      read_pdf_loop pages' page_number
        (pdf_text ++ text ++ nl ++ lit "Page Number: " ++ str_of_int page_number)
  end.

Definition read_pdf (filepath : pystr) : res pystr :=
  pages <- PdfReader filepath ;;
  read_pdf_loop pages 0 [].

End read_pdf.

(** What [read_pdf] adds for the page of a given number. *)
Definition page_text (page_number : nat) (text : pystr) : pystr :=
  text ++ nl ++ lit "Page Number: " ++ str_of_int (Z.of_nat page_number).

(** ** [arxiv_search]

    The arXiv client is a library: the papers it yields for a query, with
    the attributes the code reads, are a parameter.  [Arxiv.paper] holds
    what [str] gives for each attribute.  The generator [client.results]
    yields some papers and then stops or fails. *)
Module Arxiv.

Record paper : Type := {
  title : pystr;
  pdf_url : pystr;
  summary : pystr;
  authors : list pystr;
  published : pystr;
  updated : pystr;
  categories : list pystr;
  entry_id : pystr
}.

(** The value of the key [raw_content], given the text of the PDF. *)
Definition raw_content (p : paper) (pdf_text : pystr) : pystr :=
  lit "Title: " ++ title p ++ nl
  ++ lit "Authors: " ++ join (lit ", ") (authors p) ++ nl
  ++ lit "Published: " ++ published p ++ nl
  ++ lit "Updated: " ++ updated p ++ nl
  ++ lit "Categories: " ++ join (lit ", ") (categories p) ++ nl
  ++ lit "Abstract: " ++ summary p ++ nl
  ++ lit "PDF URL: " ++ pdf_url p ++ nl
  ++ lit "ArXiv ID: " ++ entry_id p ++ nl
  ++ lit "Content: " ++ pdf_text.

(** The dict [result]. *)
Definition result (p : paper) (pdf_text : pystr) : pyval :=
  VDict [(lit "title", VStr (title p));
         (lit "url", VStr (pdf_url p));
         (lit "content", VStr (summary p));
         (lit "raw_content", VStr (raw_content p pdf_text))].

Section search.
Variable page : Type.
Variable PdfReader : pystr -> res (list page).
Variable extract_text : page -> res pystr.
Variable client_results : pystr -> Z -> list paper * res unit.
Variable download_pdf : paper -> res pystr.

(** The loop [for paper in client.results(search)]; [stop] is how the
    generator ends after its last paper. *)
Fixpoint results_loop (papers : list paper) (stop : res unit)
    (results : list pyval) : res (list pyval) :=
  match papers with
  | [] => _ <- stop ;; Ok results
  | p :: papers' =>
      filename <- download_pdf p ;;
      pdf_text <- read_pdf page PdfReader extract_text filename ;;
      results_loop papers' stop (results ++ [result p pdf_text])
  end.

Definition arxiv_search (query : pystr) (max_results : Z) : res pyval :=
  let '(papers, stop) := client_results query max_results in
  results <- results_loop papers stop [] ;;
  Ok (VDict [(lit "results", VList results)]).

End search.

End Arxiv.

(** ** The records of a response of the list form *)

(** What the loop over [search_response] takes from an element that is a
    collection or a bare list of records. *)
Definition records_of (response : pyval) : option (list pyval) :=
  match response with
  | VDict d =>
      match lookup_key (lit "results") d with
      | Some (VList records) => Some records
      | _ => None
      end
  | VList records => Some records
  | _ => None
  end.

(** ** The records of an input *)

(** The records an input of either form holds, in order: those under
    [results] for a mapping; for a list, those of its elements, each a
    collection or a bare list of records, one after the other. *)
Definition records_in (search_response : pyval) : option (list pyval) :=
  match search_response with
  | VDict _ => records_of search_response
  | VList responses => @concat pyval <$> mapM records_of responses
  | _ => None
  end.

(** ** The raw content under a budget of 10 tokens *)

(** "At most 40 characters: untouched; longer: cut to exactly 40 characters
    with the marker appended." *)
Definition limited_to_40 (raw : pystr) : pystr :=
  if (length raw <=? 40)%nat then raw
  else take 40 raw ++ lit "... [truncated]".

(** The raw text of a Source Record: its [raw_content] if that is a
    string, the empty string if it is null or absent. *)
Definition raw_text_of (source : pyval) : pystr :=
  match source with
  | VDict d =>
      match lookup_key (lit "raw_content") d with
      | Some (VStr raw) => raw
      | _ => []
      end
  | _ => []
  end.

(** The block of a Source Record for a budget of 10 tokens, raw content
    included. *)
Definition block_10 (source : pyval) : pystr :=
  match source with
  | VDict d =>
      match lookup_key (lit "title") d, lookup_key (lit "url") d,
            lookup_key (lit "content") d with
      | Some (VStr title), Some (VStr url), Some (VStr content) =>
          block_head title url content
          ++ lit "Full source content limited to 10 tokens: "
          ++ limited_to_40 (raw_text_of source) ++ nl ++ nl
      | _, _, _ => []
      end
  | _ => []
  end.

(** * Properties *)

Arguments lit : simpl never.
Arguments io_bind : simpl never.
Arguments lift : simpl never.
Arguments ret : simpl never.

(** ** The output monad *)

Lemma io_bind_lift_ok {A B : Type} (a : A) (k : A -> io B) :
  io_bind (lift (Ok a)) k = k a.
Proof. unfold io_bind, lift. by destruct (k a). Qed.

Lemma io_bind_ret {A B : Type} (a : A) (k : A -> io B) :
  io_bind (ret a) k = k a.
Proof. apply io_bind_lift_ok. Qed.

Lemma io_bind_ok {A B : Type} (out : list pystr) (a : A) (k : A -> io B) :
  io_bind (out, Ok a) k = (out ++ (k a).1, (k a).2).
Proof. unfold io_bind. by destruct (k a). Qed.

(** ** [strip] *)

Lemma lstrip_cons_keep c s : is_whitespace c = false -> lstrip (c :: s) = c :: s.
Proof. intros H. simpl. by rewrite H. Qed.

Lemma rstrip_snoc_keep s c : is_whitespace c = false -> rstrip (s ++ [c]) = s ++ [c].
Proof.
  intros H. unfold rstrip. rewrite reverse_snoc, lstrip_cons_keep by done.
  by rewrite reverse_cons, reverse_involutive.
Qed.

Lemma rstrip_snoc_drop s c : is_whitespace c = true -> rstrip (s ++ [c]) = rstrip s.
Proof. intros H. unfold rstrip. rewrite reverse_snoc. simpl. by rewrite H. Qed.

(** Trailing whitespace after a character that is not whitespace is all
    that [rstrip] removes. *)
Lemma rstrip_trailing s c w :
  is_whitespace c = false -> forallb is_whitespace w = true ->
  rstrip (s ++ [c] ++ w) = s ++ [c].
Proof.
  intros Hc. induction w as [|x w IH] using rev_ind; intros Hw.
  - rewrite app_nil_r. by apply rstrip_snoc_keep.
  - rewrite forallb_app in Hw. simpl in Hw.
    apply andb_prop in Hw as [Hw Hx]. apply andb_prop in Hx as [Hx _].
    rewrite !app_assoc, rstrip_snoc_drop by done.
    rewrite <- app_assoc. by apply IH.
Qed.

(** [rstrip] never reaches past a character that is not whitespace. *)
Lemma rstrip_keeps s c t :
  is_whitespace c = false -> exists rest, rstrip (s ++ [c] ++ t) = s ++ [c] ++ rest.
Proof.
  intros Hc. induction t as [|x t IH] using rev_ind.
  - exists []. rewrite app_nil_r. by apply rstrip_snoc_keep.
  - destruct (is_whitespace x) eqn:Hx.
    + destruct IH as [rest IH]. exists rest.
      by rewrite !app_assoc, rstrip_snoc_drop, <- !app_assoc.
    + exists (t ++ [x]). by rewrite !app_assoc, rstrip_snoc_keep, <- !app_assoc.
Qed.

(** A text that starts with a character that is not whitespace keeps, when
    stripped, everything up to its last such character. *)
Lemma strip_keeps c s c' t :
  is_whitespace c = false -> is_whitespace c' = false ->
  exists rest, strip (c :: s ++ [c'] ++ t) = c :: s ++ [c'] ++ rest.
Proof.
  intros Hc Hc'. destruct (rstrip_keeps (c :: s) c' t Hc') as [rest E].
  exists rest. unfold strip. simpl in *. rewrite E. by apply lstrip_cons_keep.
Qed.

Lemma strip_trailing c s c' w :
  is_whitespace c = false -> is_whitespace c' = false ->
  forallb is_whitespace w = true ->
  strip (c :: s ++ [c'] ++ w) = c :: s ++ [c'].
Proof.
  intros Hc Hc' Hw. unfold strip.
  change (c :: s ++ [c'] ++ w) with ((c :: s) ++ [c'] ++ w).
  rewrite rstrip_trailing by done. by apply lstrip_cons_keep.
Qed.

(** ** Running the code on well-formed input *)

Lemma well_formed_fields source :
  well_formed source = true ->
  exists d title url content,
    source = VDict d
    /\ lookup_key (lit "title") d = Some (VStr title)
    /\ lookup_key (lit "url") d = Some (VStr url)
    /\ lookup_key (lit "content") d = Some (VStr content)
    /\ (lookup_key (lit "raw_content") d = None
        \/ lookup_key (lit "raw_content") d = Some VNone
        \/ exists raw, lookup_key (lit "raw_content") d = Some (VStr raw)).
Proof.
  destruct source as [| | | |d]; try done. simpl. intros H.
  repeat (apply andb_prop in H as [H ?]).
  destruct (lookup_key (lit "title") d) as [[| |title| |]|] eqn:Et; try done.
  destruct (lookup_key (lit "url") d) as [[| |url| |]|] eqn:Eu; try done.
  destruct (lookup_key (lit "content") d) as [[| |content| |]|] eqn:Ec; try done.
  exists d, title, url, content. repeat split; try done.
  destruct (lookup_key (lit "raw_content") d) as [[]|]; try done; eauto.
Qed.

Lemma well_formed_key source :
  well_formed source = true -> exists url, key_of source = Ok (KStr url).
Proof.
  intros (d & t & u & c & -> & _ & Hu & _)%well_formed_fields.
  exists u. unfold key_of. simpl. by rewrite Hu.
Qed.

Lemma raw_content_block_str d raw t :
  lookup_key (lit "raw_content") d = Some (VStr raw) ->
  raw_content_block (VDict d) t = ([], Ok (raw_block t (clipped t raw))).
Proof.
  intros H. unfold raw_content_block, clipped. cbn [dict_get]. rewrite H.
  rewrite io_bind_lift_ok, io_bind_ret. cbn [py_len]. rewrite io_bind_lift_ok.
  destruct (t * 4 <? _); cbn [truncate]; by rewrite !io_bind_lift_ok.
Qed.

Lemma raw_content_block_absent d t :
  lookup_key (lit "raw_content") d = None ->
  raw_content_block (VDict d) t = ([], Ok (raw_block t (clipped t []))).
Proof.
  intros H. unfold raw_content_block, clipped. cbn [dict_get]. rewrite H.
  rewrite io_bind_lift_ok, io_bind_ret. cbn [py_len]. rewrite io_bind_lift_ok.
  destruct (t * 4 <? _); cbn [truncate]; by rewrite !io_bind_lift_ok.
Qed.

Lemma raw_content_block_null d url t :
  lookup_key (lit "raw_content") d = Some VNone ->
  field_str (VDict d) (lit "url") = Ok url ->
  raw_content_block (VDict d) t =
    ([lit "Warning: No raw_content found for source " ++ url],
     Ok (raw_block t (clipped t []))).
Proof.
  intros H Hu. unfold raw_content_block, clipped. rewrite Hu.
  cbn [dict_get]. rewrite H. rewrite !io_bind_lift_ok.
  unfold print. rewrite io_bind_ok. unfold ret. cbn [fst snd].
  rewrite io_bind_ok. cbn [py_len]. rewrite io_bind_lift_ok.
  destruct (t * 4 <? _); cbn [truncate]; by rewrite !io_bind_lift_ok.
Qed.


Lemma source_block_no_raw d title url content t :
  lookup_key (lit "title") d = Some (VStr title) ->
  lookup_key (lit "url") d = Some (VStr url) ->
  lookup_key (lit "content") d = Some (VStr content) ->
  source_block (VDict d) t false = ([], Ok (block_head title url content)).
Proof.
  intros Ht Hu Hc. unfold source_block, field_str. cbn [subscript].
  rewrite Ht, Hu, Hc. cbn [bind py_str]. by rewrite !io_bind_lift_ok.
Qed.

Lemma source_block_raw d title url content t :
  lookup_key (lit "title") d = Some (VStr title) ->
  lookup_key (lit "url") d = Some (VStr url) ->
  lookup_key (lit "content") d = Some (VStr content) ->
  source_block (VDict d) t true =
    ((raw_content_block (VDict d) t).1,
     text <- (raw_content_block (VDict d) t).2 ;;
     Ok (block_head title url content ++ text)).
Proof.
  intros Ht Hu Hc. unfold source_block, field_str. cbn [subscript].
  rewrite Ht, Hu, Hc. cbn [bind py_str]. rewrite !io_bind_lift_ok.
  destruct (raw_content_block (VDict d) t) as [out [text| |]]; try done.
  rewrite io_bind_ok. unfold ret. cbn [fst snd bind]. by rewrite app_nil_r.
Qed.

Lemma source_block_well_formed source t b :
  well_formed source = true ->
  exists out block, source_block source t b = (out, Ok block).
Proof.
  intros (d & title & url & c & -> & Ht & Hu & Hc & Hr)%well_formed_fields.
  destruct b.
  - rewrite (source_block_raw _ _ _ _ _ Ht Hu Hc).
    destruct Hr as [Hr|[Hr|[raw Hr]]].
    + rewrite raw_content_block_absent by done. simpl. eauto.
    + rewrite (raw_content_block_null _ url) by (by unfold field_str; simpl; rewrite ?Hu).
      simpl. eauto.
    + rewrite (raw_content_block_str _ raw) by done. simpl. eauto.
  - rewrite (source_block_no_raw _ _ _ _ _ Ht Hu Hc). eauto.
Qed.

(** What [format_loop] returns extends the text it started from. *)
Lemma format_loop_extends sources t b text out s :
  format_loop sources t b text = (out, Ok s) -> exists rest, s = text ++ rest.
Proof.
  revert text out.
  induction sources as [|source sources IH]; intros text out; cbn [format_loop].
  - intros [= _ <-]. exists []. by rewrite app_nil_r.
  - destruct (source_block source t b) as [o [block| |]]; try done.
    rewrite io_bind_ok.
    destruct (format_loop sources t b (text ++ block)) as [o' r] eqn:E.
    intros [= _ ->]. apply IH in E as [rest ->]. exists (block ++ rest).
    by rewrite app_assoc.
Qed.

Lemma format_loop_well_formed sources t b text :
  Forall (fun source => well_formed source = true) sources ->
  exists out s, format_loop sources t b text = (out, Ok s).
Proof.
  intros H. revert text.
  induction H as [|source sources Hs _ IH]; intros text; cbn [format_loop].
  - unfold ret. eauto.
  - destruct (source_block_well_formed source t b Hs) as (o & block & ->).
    destruct (IH (text ++ block)) as (o' & s & E).
    rewrite io_bind_ok, E. eauto.
Qed.

Lemma dedup_loop_well_formed sources unique_sources :
  Forall (fun source => well_formed source = true) sources ->
  Forall (fun source => well_formed source = true) unique_sources.*2 ->
  exists unique_sources',
    dedup_loop sources unique_sources = Ok unique_sources'
    /\ Forall (fun source => well_formed source = true) unique_sources'.*2.
Proof.
  intros H. revert unique_sources.
  induction H as [|source sources Hs _ IH]; intros unique_sources Hu;
    cbn [dedup_loop].
  - eauto.
  - destruct (well_formed_fields source Hs) as (d & _ & url & _ & -> & _ & E & _).
    cbn [subscript]. rewrite E. cbn [bind to_key].
    destruct (contains _ _); [by apply IH|].
    apply IH. rewrite fmap_app. apply Forall_app. split; [done|].
    by repeat constructor.
Qed.

Lemma extend_loop_well_formed responses sources_list :
  forallb (fun response =>
             match response with
             | VDict _ => record_set response
             | VList records => forallb well_formed records
             | _ => false
             end) responses = true ->
  Forall (fun source => well_formed source = true) sources_list ->
  exists sources_list',
    extend_loop responses sources_list = Ok sources_list'
    /\ Forall (fun source => well_formed source = true) sources_list'.
Proof.
  revert sources_list.
  induction responses as [|response responses IH]; intros sources_list; simpl.
  - eauto.
  - intros [Hr Hrs]%andb_prop Hl. destruct response as [| | |records|d]; try done.
    + simpl. apply IH; [done|]. apply Forall_app. split; [done|].
      apply Forall_forall. intros x Hx. apply list_elem_of_In in Hx.
      by apply (proj1 (forallb_forall _ _) Hr).
    + simpl in Hr. simpl.
      destruct (lookup_key (lit "results") d) as [[| | |records|]|] eqn:E; try done.
      rewrite bool_decide_true by eauto. simpl.
      apply IH; [done|]. apply Forall_app. split; [done|].
      apply Forall_forall. intros x Hx. apply list_elem_of_In in Hx.
      by apply (proj1 (forallb_forall _ _) Hr).
Qed.

(** On a valid input the code reaches the formatting loop with well-formed
    sources. *)
Lemma unique_sources_of_valid search_response :
  valid_input search_response = true ->
  exists sources,
    unique_sources_of search_response = Ok sources
    /\ Forall (fun source => well_formed source = true) sources.
Proof.
  unfold unique_sources_of. destruct search_response as [| | |responses|d]; try done.
  - simpl. intros H.
    destruct (extend_loop_well_formed responses [] H) as (l & -> & Hl); [done|].
    simpl. destruct (dedup_loop_well_formed l [] Hl) as (u & -> & Hu); [done|].
    simpl. eauto.
  - simpl. destruct (lookup_key (lit "results") d) as [[| | |records|]|]; try done.
    intros H. simpl.
    destruct (dedup_loop_well_formed records []) as (u & -> & Hu); [|done|].
    + apply Forall_forall. intros x Hx. apply list_elem_of_In in Hx.
      by apply (proj1 (forallb_forall _ _) H).
    + simpl. eauto.
Qed.

(** The function in terms of [unique_sources_of]. *)
Lemma deduplicate_and_format_sources_eq search_response t b :
  deduplicate_and_format_sources search_response t b =
    (sources <~ lift (unique_sources_of search_response) ;;
     formatted_text <~ format_loop sources t b (lit "Sources:" ++ nl ++ nl) ;;
     ret (strip formatted_text)).
Proof.
  unfold deduplicate_and_format_sources, unique_sources_of.
  destruct (sources_list_of search_response) as [l| |]; try done.
  rewrite io_bind_lift_ok. simpl.
  destruct (py_iter l) as [sources| |]; try done. simpl.
  destruct (dedup_loop sources []) as [u| |]; try done.
Qed.

(** [strip] leaves the header in place. *)
Lemma strip_header text :
  exists rest, strip (lit "Sources:" ++ text) = lit "Sources:" ++ rest.
Proof.
  destruct (strip_keeps 83%N (lit "ources") 58%N text) as [r Hr]; [done..|].
  exists r. exact Hr.
Qed.

Lemma returns_on_valid search_response t b :
  valid_input search_response = true ->
  exists out rest,
    deduplicate_and_format_sources search_response t b =
      (out, Ok (lit "Sources:" ++ rest)).
Proof.
  intros (sources & E & Hs)%unique_sources_of_valid.
  rewrite deduplicate_and_format_sources_eq, E, io_bind_lift_ok.
  destruct (format_loop_well_formed sources t b (lit "Sources:" ++ nl ++ nl) Hs)
    as (out & s & Ef).
  rewrite Ef. destruct (format_loop_extends _ _ _ _ _ _ Ef) as [rest ->].
  rewrite io_bind_ok. unfold ret. cbn [fst snd].
  rewrite <- !app_assoc. destruct (strip_header (nl ++ nl ++ rest)) as [r ->].
  eauto.
Qed.

(** ** Which exceptions the code raises *)

Lemma bind_quiet {A B : Type} (m : res A) (k : A -> res B) :
  quiet m -> (forall a, quiet (k a)) -> quiet (bind m k).
Proof.
  intros Hm Hk. destruct m; simpl; [apply Hk| |done].
  intros [= ->]. by apply Hm.
Qed.

Lemma io_bind_quiet {A B : Type} (m : io A) (k : A -> io B) :
  quiet m.2 -> (forall a, quiet (k a).2) -> quiet (io_bind m k).2.
Proof.
  destruct m as [out [a| |]]; cbn [snd]; intros Hm H.
  - rewrite io_bind_ok. apply H.
  - intros [= ->]. by apply Hm.
  - done.
Qed.

Lemma subscript_quiet v key : quiet (subscript v key).
Proof. destruct v; try done. simpl. by destruct (lookup_key key d). Qed.

Lemma dict_get_quiet v key default : quiet (dict_get v key default).
Proof. destruct v; try done. simpl. by destruct (lookup_key key d). Qed.

Lemma py_iter_quiet v : quiet (py_iter v).
Proof. by destruct v. Qed.

Lemma py_len_quiet v : quiet (py_len v).
Proof. by destruct v. Qed.

Lemma py_str_quiet v : quiet (py_str v).
Proof. by destruct v. Qed.

Lemma to_key_quiet v : quiet (to_key v).
Proof. by destruct v. Qed.

Lemma truncate_quiet v k : quiet (truncate v k).
Proof. by destruct v. Qed.

Lemma field_str_quiet source field : quiet (field_str source field).
Proof. apply bind_quiet; auto using subscript_quiet, py_str_quiet. Qed.

Lemma extend_loop_quiet responses sources_list :
  quiet (extend_loop responses sources_list).
Proof.
  revert sources_list.
  induction responses as [|response responses IH]; intros sources_list;
    cbn [extend_loop]; [done|].
  destruct (is_dict_with _ _);
    repeat (apply bind_quiet; [auto using subscript_quiet, py_iter_quiet|intros]);
    apply IH.
Qed.

Lemma dedup_loop_quiet sources unique_sources :
  quiet (dedup_loop sources unique_sources).
Proof.
  revert unique_sources.
  induction sources as [|source sources IH]; intros unique_sources;
    cbn [dedup_loop]; [done|].
  repeat (apply bind_quiet; [auto using subscript_quiet, to_key_quiet|intros]).
  destruct (contains _ _); apply IH.
Qed.

Lemma raw_content_block_quiet source t : quiet (raw_content_block source t).2.
Proof.
  unfold raw_content_block.
  apply io_bind_quiet; [apply dict_get_quiet|intros raw].
  apply io_bind_quiet.
  - destruct raw; try done.
    apply io_bind_quiet; [apply field_str_quiet|intros url].
    by apply io_bind_quiet.
  - intros raw'. apply io_bind_quiet; [apply py_len_quiet|intros len].
    apply io_bind_quiet.
    + unfold lift. cbn [snd]. destruct (_ <? _); [apply truncate_quiet|done].
    + intros raw''. by apply io_bind_quiet; [apply py_str_quiet|].
Qed.

Lemma source_block_quiet source t b : quiet (source_block source t b).2.
Proof.
  unfold source_block.
  repeat (apply io_bind_quiet; [apply field_str_quiet|intros]).
  destruct b; [|done].
  by apply io_bind_quiet; [apply raw_content_block_quiet|].
Qed.

Lemma format_loop_quiet sources t b text : quiet (format_loop sources t b text).2.
Proof.
  revert text. induction sources as [|source sources IH]; intros text;
    cbn [format_loop]; [done|].
  apply io_bind_quiet; [apply source_block_quiet|auto].
Qed.

(** ** The claims *)

(** C10: on every valid input [deduplicate_and_format_sources] returns a
    string that begins with the header ["Sources:"]; on the input
    [{"results": []}] it returns exactly ["Sources:"]. *)
Theorem header_first :
  (forall search_response t b,
     valid_input search_response = true ->
     exists out rest,
       deduplicate_and_format_sources search_response t b =
         (out, Ok (lit "Sources:" ++ rest)))
  /\ (forall t b,
        deduplicate_and_format_sources (collection []) t b =
          ([], Ok (lit "Sources:"))).
Proof.
  split.
  - intros. by apply returns_on_valid.
  - intros t b. reflexivity.
Qed.

Lemma header_first_witness :
  valid_input (collection [record (str "A") (str "u1") (str "c1")]) = true
  /\ exists out rest,
       deduplicate_and_format_sources
         (collection [record (str "A") (str "u1") (str "c1")]) 10 true =
         (out, Ok (lit "Sources:" ++ rest)).
Proof.
  split; [reflexivity|]. apply (proj1 header_first). reflexivity.
Defined.

(** C4, as stated, fails: a list holding a bare list of records is neither
    a mapping with key [results] nor a sequence of such mappings, and the
    code formats it without raising. *)
Lemma invalid_input_counterexample :
  let search_response := VList [VList [record (str "A") (str "u1") (str "c1")]] in
  mapping_with_results_or_sequence_of_such search_response = false
  /\ deduplicate_and_format_sources search_response 10 false =
       ([], Ok (lit "Sources:" ++ nl ++ nl ++ lit "Source A:" ++ nl
                ++ lit "===" ++ nl ++ lit "URL: u1" ++ nl ++ lit "===" ++ nl
                ++ lit "Most relevant content from source: c1" ++ nl
                ++ lit "===")).
Proof. split; reflexivity. Qed.

(** C4, amended: [deduplicate_and_format_sources] raises [ValueError] (the
    specification's InvalidInput) exactly when [search_response] is neither
    a mapping nor a sequence; a mapping without the key [results] raises
    [KeyError] instead; on every input of a valid shape (a record set, or a
    list of record sets and bare lists of records, the records well formed)
    it returns normally. *)
Theorem invalid_input_exactly :
  (forall search_response t b,
     (deduplicate_and_format_sources search_response t b).2 = Raise ValueError
     <-> mapping_or_sequence search_response = false)
  /\ (forall d t b,
        lookup_key (lit "results") d = None ->
        deduplicate_and_format_sources (VDict d) t b = ([], Raise KeyError))
  /\ (forall search_response t b,
        valid_input search_response = true ->
        exists out s,
          deduplicate_and_format_sources search_response t b = (out, Ok s)).
Proof.
  split; [|split].
  - intros search_response t b. split.
    + intros H. destruct (mapping_or_sequence search_response) eqn:E; [|done].
      exfalso. revert H. unfold deduplicate_and_format_sources.
      apply io_bind_quiet.
      * destruct search_response; try done.
        -- cbn [sources_list_of lift snd].
           by apply bind_quiet; [apply extend_loop_quiet|].
        -- apply subscript_quiet.
      * intros sources_list. apply io_bind_quiet.
        -- apply bind_quiet; [apply py_iter_quiet|intros; apply dedup_loop_quiet].
        -- intros u. by apply io_bind_quiet; [apply format_loop_quiet|].
    + by destruct search_response.
  - intros d t b H. unfold deduplicate_and_format_sources.
    cbn [sources_list_of subscript]. by rewrite H.
  - intros search_response t b H.
    destruct (returns_on_valid search_response t b H) as (out & rest & ->). eauto.
Qed.

Lemma invalid_input_exactly_witness :
  lookup_key (lit "results") [(lit "items", VList [])] = None
  /\ valid_input (VList [VList [record (str "A") (str "u1") (str "c1")]]) = true
  /\ deduplicate_and_format_sources (VDict [(lit "items", VList [])]) 10 false =
       ([], Raise KeyError)
  /\ exists out s,
       deduplicate_and_format_sources
         (VList [VList [record (str "A") (str "u1") (str "c1")]]) 10 false =
         (out, Ok s).
Proof.
  split; [reflexivity|]. split; [reflexivity|]. split.
  - apply (proj1 (proj2 invalid_input_exactly)). reflexivity.
  - apply (proj2 (proj2 invalid_input_exactly)). reflexivity.
Defined.

Lemma format_loop_without_raw sources t1 t2 text :
  format_loop sources t1 false text = format_loop sources t2 false text.
Proof.
  revert text. induction sources as [|source sources IH]; intros text;
    cbn [format_loop]; [done|].
  change (source_block source t2 false) with (source_block source t1 false).
  destruct (source_block source t1 false) as [out [block| |]]; try done.
  by rewrite !io_bind_ok, IH.
Qed.

(** C8: without [include_raw_content], [max_tokens_per_source] has no
    influence on what [deduplicate_and_format_sources] returns or prints. *)
Theorem max_tokens_unused_without_raw search_response t1 t2 :
  deduplicate_and_format_sources search_response t1 false =
  deduplicate_and_format_sources search_response t2 false.
Proof.
  rewrite !deduplicate_and_format_sources_eq.
  destruct (unique_sources_of search_response) as [sources| |]; try done.
  by rewrite !io_bind_lift_ok, (format_loop_without_raw _ t1 t2).
Qed.

(** C6: a collection wrapped in a one-element list is formatted as the
    collection itself. *)
Theorem wrapped_as_unwrapped d results t b :
  lookup_key (lit "results") d = Some results ->
  deduplicate_and_format_sources (VList [VDict d]) t b =
  deduplicate_and_format_sources (VDict d) t b.
Proof.
  intros H. rewrite !deduplicate_and_format_sources_eq.
  f_equal. f_equal. unfold unique_sources_of.
  cbn [sources_list_of extend_loop is_dict_with subscript]. rewrite H.
  rewrite bool_decide_true by eauto. cbn [bind].
  by destruct (py_iter results).
Qed.

Lemma wrapped_as_unwrapped_witness :
  let d := [(lit "results",
             VList [record (str "A") (str "u1") (str "c1");
                    record (str "B") (str "u1") (str "c2")])] in
  deduplicate_and_format_sources (VList [VDict d]) 10 true =
  deduplicate_and_format_sources (VDict d) 10 true.
Proof.
  intros d. apply (wrapped_as_unwrapped d (VList [record (str "A") (str "u1") (str "c1");
                    record (str "B") (str "u1") (str "c2")])). reflexivity.
Defined.

Lemma bullet_title_url source title_url :
  title_url_of source = Some title_url -> bullet source = Ok (bullet_line title_url).
Proof.
  destruct source as [| | | |d]; try done. unfold bullet, field_str.
  cbn [title_url_of subscript].
  destruct (lookup_key (lit "title") d) as [[| |title| |]|]; try done.
  destruct (lookup_key (lit "url") d) as [[| |url| |]|]; try done.
  by intros [= <-].
Qed.

Lemma bullets_title_url sources title_urls :
  Forall2 (fun source title_url => title_url_of source = Some title_url)
    sources title_urls ->
  bullets sources = Ok (bullet_line <$> title_urls).
Proof.
  induction 1 as [|source title_url sources title_urls H _ IH]; [done|].
  cbn [bullets]. by rewrite (bullet_title_url _ _ H), IH.
Qed.

(** C7: [format_sources], given a mapping with a [results] list, returns
    the lines [* <title> : <url>], one per record in input order, joined by
    newlines; in particular on the two records X/u1 and Y/u2 it returns
    exactly ["* X : u1\n* Y : u2"]. *)
Theorem format_sources_bullets :
  (forall d sources title_urls,
     lookup_key (lit "results") d = Some (VList sources) ->
     Forall2 (fun source title_url => title_url_of source = Some title_url)
       sources title_urls ->
     format_sources (VDict d) = Ok (join nl (bullet_line <$> title_urls)))
  /\ format_sources
       (VDict [(lit "results",
                VList [VDict [(lit "title", str "X"); (lit "url", str "u1")];
                       VDict [(lit "title", str "Y"); (lit "url", str "u2")]])])
     = Ok (lit "* X : u1" ++ nl ++ lit "* Y : u2").
Proof.
  split; [|reflexivity].
  intros d sources title_urls Hd H. unfold format_sources.
  cbn [subscript]. rewrite Hd. cbn [bind py_iter].
  by rewrite (bullets_title_url _ _ H).
Qed.

Lemma format_sources_bullets_witness :
  format_sources
    (VDict [(lit "results",
             VList [VDict [(lit "title", str "X"); (lit "url", str "u1")];
                    VDict [(lit "title", str "X"); (lit "url", str "u1")]])])
  = Ok (join nl (bullet_line <$> [(lit "X", lit "u1"); (lit "X", lit "u1")])).
Proof.
  apply (proj1 format_sources_bullets) with
    (sources := [VDict [(lit "title", str "X"); (lit "url", str "u1")];
                 VDict [(lit "title", str "X"); (lit "url", str "u1")]]).
  - reflexivity.
  - repeat constructor.
Defined.

(** ** The deduplication loop *)

Lemma dedup_loop_cons source sources unique_sources :
  dedup_loop (source :: sources) unique_sources =
    (key <- key_of source ;;
     if contains key unique_sources then dedup_loop sources unique_sources
     else dedup_loop sources (unique_sources ++ [(key, source)])).
Proof.
  cbn [dedup_loop]. unfold key_of.
  by destruct (subscript source (lit "url")).
Qed.

Lemma dedup_loop_app sources sources' unique_sources :
  dedup_loop (sources ++ sources') unique_sources =
    (unique_sources' <- dedup_loop sources unique_sources ;;
     dedup_loop sources' unique_sources').
Proof.
  revert unique_sources.
  induction sources as [|source sources IH]; intros unique_sources; [done|].
  rewrite <- app_comm_cons, !dedup_loop_cons.
  destruct (key_of source) as [key| |]; try done. cbn [bind].
  destruct (contains key unique_sources); apply IH.
Qed.

Lemma contains_spec key unique_sources :
  contains key unique_sources = true <-> key ∈ unique_sources.*1.
Proof. unfold contains. by rewrite bool_decide_eq_true. Qed.

(** What the loop adds to [unique_sources]: nothing is removed, keys stay
    distinct, and every new entry is a source of the list under its key. *)
Lemma dedup_loop_grows sources unique_sources unique_sources' :
  dedup_loop sources unique_sources = Ok unique_sources' ->
  (forall kr, kr ∈ unique_sources -> kr ∈ unique_sources')
  /\ (NoDup unique_sources.*1 -> NoDup unique_sources'.*1)
  /\ (forall key source, (key, source) ∈ unique_sources' ->
        (key, source) ∈ unique_sources
        \/ source ∈ sources /\ key_of source = Ok key /\ key ∉ unique_sources.*1).
Proof.
  revert unique_sources.
  induction sources as [|source sources IH]; intros unique_sources.
  - intros [= <-]. auto.
  - rewrite dedup_loop_cons. destruct (key_of source) as [key| |] eqn:Ek; try done.
    cbn [bind]. destruct (contains key unique_sources) eqn:Ec.
    + intros (H1 & H2 & H3)%IH. split_and!; [done..|].
      intros k s [?|(? & ? & ?)]%H3; [by left|right].
      split_and!; [by apply list_elem_of_further|done..].
    + apply not_true_iff_false in Ec. rewrite contains_spec in Ec.
      intros (H1 & H2 & H3)%IH. split_and!.
      * intros kr Hkr. apply H1, elem_of_app. by left.
      * intros Hn. apply H2. rewrite fmap_app. apply NoDup_app.
        split_and!; [done| |apply NoDup_singleton].
        intros x Hx ->%list_elem_of_singleton. done.
      * intros k s [[?|Hin]%elem_of_app|(? & ? & Hk)]%H3.
        -- by left.
        -- apply list_elem_of_singleton in Hin as [= -> ->]. right.
           split_and!; [apply list_elem_of_here|done..].
        -- right. rewrite fmap_app, not_elem_of_app in Hk.
           split_and!; [by apply list_elem_of_further|done|apply Hk].
Qed.

(** A source whose key is already in [unique_sources] is skipped. *)
Lemma dedup_loop_skip source key sources unique_sources :
  key_of source = Ok key -> key ∈ unique_sources.*1 ->
  dedup_loop (source :: sources) unique_sources = dedup_loop sources unique_sources.
Proof.
  intros Hk Hin. rewrite dedup_loop_cons, Hk. cbn [bind].
  apply contains_spec in Hin. by rewrite Hin.
Qed.

(** After a source, its key is in [unique_sources]. *)
Lemma dedup_loop_later_duplicate r1 mid r2 post key unique_sources :
  key_of r1 = Ok key -> key_of r2 = Ok key ->
  dedup_loop (r1 :: mid ++ r2 :: post) unique_sources =
  dedup_loop (r1 :: mid ++ post) unique_sources.
Proof.
  intros H1 H2. rewrite !dedup_loop_cons, H1. cbn [bind].
  assert (forall u, key ∈ u.*1 ->
            dedup_loop (mid ++ r2 :: post) u = dedup_loop (mid ++ post) u) as Hmid.
  { intros u Hu. rewrite !dedup_loop_app.
    destruct (dedup_loop mid u) as [u'| |] eqn:E; try done. cbn [bind].
    apply (dedup_loop_skip _ key); [done|].
    apply dedup_loop_grows in E as (E & _).
    apply list_elem_of_fmap in Hu as (kr & -> & Hkr).
    apply list_elem_of_fmap_2. by apply E. }
  destruct (contains key unique_sources) eqn:Ec.
  - apply Hmid. by apply contains_spec.
  - apply Hmid. rewrite fmap_app, elem_of_app. right. apply list_elem_of_here.
Qed.

(** On records whose keys are known the loop computes the list minus later
    duplicates. *)
Lemma dedup_loop_minus_later_duplicates (l unique_sources : list (pykey * pyval)) :
  Forall (fun kr => key_of kr.2 = Ok kr.1) l ->
  dedup_loop l.*2 unique_sources =
    Ok (unique_sources
        ++ filter (fun kr => kr.1 ∉ unique_sources.*1) (minus_later_duplicates l)).
Proof.
  intros H. revert unique_sources.
  induction H as [|[key source] l Hk _ IH]; intros unique_sources.
  - by rewrite app_nil_r.
  - cbn [fmap list_fmap snd]. rewrite dedup_loop_cons. cbn [fst snd] in Hk.
    rewrite Hk. cbn [bind minus_later_duplicates fst].
    destruct (contains key unique_sources) eqn:Ec.
    + apply contains_spec in Ec. rewrite IH.
      rewrite filter_cons_False by (cbn; auto).
      rewrite list_filter_filter_l; [done|]. intros x Hx Heq. by rewrite Heq in Hx.
    + apply not_true_iff_false in Ec. rewrite contains_spec in Ec. rewrite IH.
      rewrite filter_cons_True by done. rewrite <- app_assoc. do 2 f_equal.
      cbn [app]. f_equal. rewrite list_filter_filter.
      apply list_filter_iff. intros x. rewrite fmap_app, not_elem_of_app.
      cbn. rewrite list_elem_of_singleton. tauto.
Qed.

(** ** The list minus later duplicates *)

Lemma NoDup_filter_keys (P : pykey * pyval -> Prop) `{!forall x, Decision (P x)}
    (l : list (pykey * pyval)) :
  NoDup l.*1 -> NoDup (filter P l).*1.
Proof.
  induction l as [|x l IH]; [done|]. cbn [fmap list_fmap].
  intros [Hx Hl]%NoDup_cons. rewrite filter_cons. destruct (decide (P x)); [|auto].
  cbn [fmap list_fmap]. apply NoDup_cons. split; [|auto].
  intros (y & Hy & [_ Hin]%list_elem_of_filter)%list_elem_of_fmap.
  apply Hx. rewrite Hy. by apply list_elem_of_fmap_2.
Qed.

Lemma minus_later_duplicates_sublist l : minus_later_duplicates l `sublist_of` l.
Proof.
  induction l as [|kr l IH]; [done|]. cbn [minus_later_duplicates].
  apply sublist_skip. etrans; [apply sublist_filter|done].
Qed.

Lemma minus_later_duplicates_NoDup l : NoDup (minus_later_duplicates l).*1.
Proof.
  induction l as [|kr l IH]; [constructor|]. cbn [minus_later_duplicates fmap list_fmap].
  apply NoDup_cons. split; [|by apply NoDup_filter_keys].
  intros (y & Hy & [Hne _]%list_elem_of_filter)%list_elem_of_fmap. done.
Qed.


(** ** The formatting loop as a concatenation of blocks *)

Lemma format_loop_blocks sources (blocks : list (list pystr * pystr)) t b text :
  Forall2 (fun source ob => source_block source t b = (ob.1, Ok ob.2))
    sources blocks ->
  format_loop sources t b text =
    (concat blocks.*1, Ok (text ++ concat blocks.*2)).
Proof.
  intros H. revert text.
  induction H as [|source [out block] sources blocks Hs _ IH]; intros text;
    cbn [format_loop].
  - by rewrite app_nil_r.
  - rewrite Hs, io_bind_ok, IH. cbn. by rewrite <- app_assoc.
Qed.

Lemma unique_sources_of_records records :
  unique_sources_of (collection records) =
    (unique_sources <- dedup_loop records [] ;; Ok unique_sources.*2).
Proof. reflexivity. Qed.

Lemma unique_sources_of_collection (l : list (pykey * pyval)) :
  Forall (fun kr => key_of kr.2 = Ok kr.1) l ->
  unique_sources_of (collection l.*2) = Ok (minus_later_duplicates l).*2.
Proof.
  intros H. rewrite unique_sources_of_records.
  rewrite (dedup_loop_minus_later_duplicates l [] H). cbn [bind app].
  do 2 f_equal. clear H. induction (minus_later_duplicates l) as [|x m IH]; [done|].
  rewrite filter_cons_True by (cbn; apply not_elem_of_nil). by rewrite IH.
Qed.



(** A key that no source of the list has is not added. *)
Lemma dedup_loop_no_key sources unique_sources unique_sources' key :
  Forall (fun source => key_of source <> Ok key) sources ->
  dedup_loop sources unique_sources = Ok unique_sources' ->
  key ∉ unique_sources.*1 -> key ∉ unique_sources'.*1.
Proof.
  intros Hs E Hk ([k s] & -> & Hin)%list_elem_of_fmap.
  apply dedup_loop_grows in E as (_ & _ & E).
  apply E in Hin as [Hin|(Hin & Hkey & _)].
  - apply Hk. by apply (list_elem_of_fmap_2 fst) in Hin.
  - rewrite Forall_forall in Hs. by apply (Hs s).
Qed.

(** With distinct keys, a key has one entry. *)
Lemma NoDup_keys_unique (l : list (pykey * pyval)) key r r' :
  NoDup l.*1 -> (key, r) ∈ l -> (key, r') ∈ l -> r = r'.
Proof.
  induction l as [|[k s] l IH]; [by intros _ ?%elem_of_nil|].
  cbn [fmap list_fmap fst]. intros [Hk Hl]%NoDup_cons.
  intros [[= -> ->]|H1]%elem_of_cons [[= ?]|H2]%elem_of_cons; subst; auto.
  - destruct Hk. by apply (list_elem_of_fmap_2 fst) in H2.
  - destruct Hk. by apply (list_elem_of_fmap_2 fst) in H1.
Qed.

(** The first record with a key is the one kept for it. *)
Lemma dedup_loop_first_wins pre r1 rest key unique_sources :
  key_of r1 = Ok key ->
  Forall (fun source => key_of source <> Ok key) pre ->
  dedup_loop (pre ++ r1 :: rest) [] = Ok unique_sources ->
  NoDup unique_sources.*1
  /\ forall source, (key, source) ∈ unique_sources <-> source = r1.
Proof.
  intros H1 Hpre. rewrite dedup_loop_app.
  destruct (dedup_loop pre []) as [u0| |] eqn:E0; try done. cbn [bind].
  assert (key ∉ u0.*1) as Hk0.
  { apply (dedup_loop_no_key pre [] u0 key Hpre E0), not_elem_of_nil. }
  pose proof (proj1 (proj2 (dedup_loop_grows _ _ _ E0)) (NoDup_nil_2)) as Hn0.
  rewrite dedup_loop_cons, H1. cbn [bind].
  destruct (contains key u0) eqn:Ec; [by apply contains_spec in Ec|].
  intros E. pose proof (dedup_loop_grows _ _ _ E) as (Hin & Hn & _).
  assert (NoDup unique_sources.*1) as Hu.
  { apply Hn. rewrite fmap_app. apply NoDup_app. split_and!; [done| |].
    - intros x Hx ->%list_elem_of_singleton. done.
    - apply NoDup_singleton. }
  split; [done|]. intros source. split.
  + intros Hs. apply (NoDup_keys_unique unique_sources key); [done..|].
    apply Hin, elem_of_app. right. apply list_elem_of_here.
  + intros ->. apply Hin, elem_of_app. right. apply list_elem_of_here.
Qed.

(** ** Raw content *)

Lemma source_block_well_formed_raw source t :
  well_formed source = true ->
  exists block, source_block source t true = (warning_of source, Ok block).
Proof.
  intros (d & title & url & c & -> & Ht & Hu & Hc & Hr)%well_formed_fields.
  rewrite (source_block_raw _ _ _ _ _ Ht Hu Hc). cbn [warning_of]. rewrite Hu.
  destruct Hr as [Hr|[Hr|[raw Hr]]]; rewrite Hr.
  - rewrite raw_content_block_absent by done. cbn. eauto.
  - rewrite (raw_content_block_null _ url) by
      (by unfold field_str; cbn [subscript]; rewrite ?Hu).
    cbn. eauto.
  - rewrite (raw_content_block_str _ raw) by done. cbn. eauto.
Qed.

Lemma format_loop_warnings sources t text :
  Forall (fun source => well_formed source = true) sources ->
  exists s,
    format_loop sources t true text = (concat (warning_of <$> sources), Ok s).
Proof.
  intros H. revert text.
  induction H as [|source sources Hs _ IH]; intros text; cbn [format_loop].
  - unfold ret. eauto.
  - destruct (source_block_well_formed_raw source t Hs) as (block & ->).
    destruct (IH (text ++ block)) as (s & E).
    rewrite io_bind_ok, E. cbn. eauto.
Qed.




(** ** The truncation boundary *)

Lemma strip_between a b c c' w :
  is_whitespace c = false -> is_whitespace c' = false ->
  forallb is_whitespace w = true ->
  strip ((c :: a) ++ (b ++ [c']) ++ w) = (c :: a) ++ b ++ [c'].
Proof.
  intros Hc Hc' Hw.
  transitivity (strip (c :: (a ++ b) ++ [c'] ++ w)).
  - f_equal. cbn [app]. by rewrite <- !app_assoc.
  - rewrite strip_trailing by done. cbn [app]. by rewrite <- !app_assoc.
Qed.

Lemma strip_single mid c' :
  is_whitespace c' = false ->
  strip (lit "Sources:" ++ mid ++ [c'] ++ nl ++ nl) = lit "Sources:" ++ mid ++ [c'].
Proof.
  intros H. change (lit "Sources:") with (83%N :: lit "ources:").
  transitivity (strip ((83%N :: lit "ources:") ++ (mid ++ [c']) ++ nl ++ nl)).
  - f_equal. by rewrite <- !app_assoc.
  - by rewrite strip_between.
Qed.

Lemma single_source_raw title url content raw t :
  deduplicate_and_format_sources
    (collection [record_raw (VStr title) (VStr url) (VStr content) (VStr raw)])
    t true =
    ([], Ok (strip (lit "Sources:" ++ nl ++ nl ++ block_head title url content
                    ++ raw_block t (clipped t raw)))).
Proof.
  rewrite deduplicate_and_format_sources_eq.
  change (unique_sources_of _) with
    (Ok [record_raw (VStr title) (VStr url) (VStr content) (VStr raw)]).
  rewrite io_bind_lift_ok. cbn [format_loop]. unfold record_raw.
  rewrite (source_block_raw _ title url content) by reflexivity.
  rewrite (raw_content_block_str _ raw) by reflexivity.
  cbn [fst snd bind]. rewrite io_bind_ok. unfold ret. cbn [fst snd app].
  by rewrite <- !app_assoc.
Qed.

(** C2, as stated, fails: with a limit of 40 characters a raw content of 41
    characters is not emitted untouched, it is cut to 40 and marked. *)
Lemma truncation_boundary_counterexample :
  let raw := lit "0123456789012345678901234567890123456789X" in
  length raw = 41%nat
  /\ deduplicate_and_format_sources
       (collection [record_raw (str "A") (str "u1") (str "c1") (VStr raw)])
       10 true =
       ([], Ok (single_head (lit "A") (lit "u1") (lit "c1")
                ++ lit "0123456789012345678901234567890123456789"
                ++ lit "... [truncated]"))
  /\ lit "0123456789012345678901234567890123456789" ++ lit "... [truncated]"
     <> raw.
Proof. split_and!; [reflexivity..|]. vm_compute. discriminate. Qed.

(** A single source with a budget of 10 tokens: the whole output, the
    final [strip] resolved. *)
Lemma single_source_boundary title url content raw :
  let output :=
    deduplicate_and_format_sources
      (collection [record_raw (VStr title) (VStr url) (VStr content) (VStr raw)])
      10 true in
  ((length raw <= 40)%nat ->
   output = ([], Ok (strip (single_head title url content ++ raw ++ nl ++ nl)))
   /\ forall raw' c,
        raw = raw' ++ [c] -> is_whitespace c = false ->
        output = ([], Ok (single_head title url content ++ raw)))
  /\ ((40 < length raw)%nat ->
      output = ([], Ok (single_head title url content ++ take 40 raw
                        ++ lit "... [truncated]"))
      /\ length (take 40 raw) = 40%nat).
Proof.
  intros output. unfold output. rewrite single_source_raw.
  unfold clipped, raw_block, single_head.
  change (str_of_int 10) with (lit "10"). change (10 * 4) with 40.
  split; intros Hlen.
  - destruct (Z.ltb_spec 40 (Z.of_nat (length raw))) as [?|_]; [lia|].
    split.
    + do 3 f_equal. rewrite <- !app_assoc. reflexivity.
    + intros raw' c -> Hc. do 2 f_equal.
      transitivity
        (strip (lit "Sources:"
                ++ (nl ++ nl ++ block_head title url content
                    ++ lit "Full source content limited to 10 tokens: " ++ raw')
                ++ [c] ++ nl ++ nl)).
      * f_equal. rewrite <- !app_assoc. reflexivity.
      * rewrite strip_single by done. rewrite <- !app_assoc. reflexivity.
  - destruct (Z.ltb_spec 40 (Z.of_nat (length raw))) as [_|?]; [|lia].
    split; [|rewrite length_take; lia].
    do 2 f_equal.
    transitivity
      (strip (lit "Sources:"
              ++ (nl ++ nl ++ block_head title url content
                  ++ lit "Full source content limited to 10 tokens: "
                  ++ take 40 raw ++ lit "... [truncated")
              ++ [93%N] ++ nl ++ nl)).
    + f_equal. cbn [slice_to]. rewrite <- !app_assoc. reflexivity.
    + rewrite strip_single by done. rewrite <- !app_assoc. reflexivity.
Qed.

(** ** The store *)

Section keeps.
Context (h0 : Store.store).

Lemma keeps_ret {A : Type} (a : A) (Q : A -> Prop) :
  Q a -> Store.keeps h0 (Store.ret a) Q.
Proof. intros Ha h Hh. split; [done|]. by intros out a' [= _ <-]. Qed.

Lemma keeps_read {A : Type} (f : Store.store -> res A) :
  Store.keeps h0 (Store.read f) (fun _ => True).
Proof. intros h Hh. by split. Qed.

Lemma keeps_print line : Store.keeps h0 (Store.print line) (fun _ => True).
Proof. intros h Hh. by split. Qed.

(** A new object is none of the objects of [h0]. *)
Lemma keeps_alloc o : Store.keeps h0 (Store.alloc o) (fun l => h0 !! l = None).
Proof.
  intros h Hh. unfold Store.alloc. cbn [fst snd].
  assert (h !! fresh (dom h) = None) as Hf by apply not_elem_of_dom, is_fresh.
  assert (h0 !! fresh (dom h) = None) as Hf0 by by eapply lookup_weaken_None.
  split; [by apply insert_subseteq_r|]. by intros out l [= _ <-].
Qed.

Lemma keeps_extend l items :
  h0 !! l = None -> Store.keeps h0 (Store.extend l items) (fun _ => True).
Proof.
  intros Hl h Hh. unfold Store.extend. split; [|done].
  destruct (h !! l) as [[old|d]|]; try done. by apply insert_subseteq_r.
Qed.

Lemma keeps_setitem l key v :
  h0 !! l = None -> Store.keeps h0 (Store.setitem l key v) (fun _ => True).
Proof.
  intros Hl h Hh. unfold Store.setitem. split; [|done].
  destruct (h !! l) as [[old|d]|]; try done. by apply insert_subseteq_r.
Qed.

Lemma keeps_bind {A B : Type} (m : Store.M A) (k : A -> Store.M B)
    (Q : A -> Prop) (R : B -> Prop) :
  Store.keeps h0 m Q -> (forall a, Q a -> Store.keeps h0 (k a) R) ->
  Store.keeps h0 (Store.bind m k) R.
Proof.
  intros Hm Hk h Hh. destruct (Hm h Hh) as [H1 H2]. unfold Store.bind.
  destruct (m h) as [h' [out [a| |]]]; cbn [fst snd] in *; try done.
  destruct (Hk a (H2 out a eq_refl) h' H1) as [H3 H4].
  destruct (k a h') as [h'' [out' r]]. cbn [fst snd] in *.
  split; [done|]. intros o b [= _ ->]. by eapply H4.
Qed.

Lemma keeps_weaken {A : Type} (m : Store.M A) (Q : A -> Prop) :
  Store.keeps h0 m Q -> Store.keeps h0 m (fun _ => True).
Proof. intros Hm h Hh. split; [apply (Hm h Hh)|done]. Qed.

Lemma extend_loop_keeps responses sources_list :
  h0 !! sources_list = None ->
  Store.keeps h0 (Store.extend_loop responses sources_list) (fun _ => True).
Proof.
  intros Hl. induction responses as [|response responses IH];
    cbn [Store.extend_loop]; [by apply keeps_ret|].
  eapply keeps_bind; [apply keeps_read|]. intros [] _.
  - eapply keeps_bind; [apply keeps_read|]. intros results _.
    eapply keeps_bind; [apply keeps_read|]. intros items _.
    eapply keeps_bind; [by apply keeps_extend|]. by intros _ _.
  - eapply keeps_bind; [apply keeps_read|]. intros items _.
    eapply keeps_bind; [by apply keeps_extend|]. by intros _ _.
Qed.

Lemma sources_list_of_keeps search_response :
  Store.keeps h0 (Store.sources_list_of search_response) (fun _ => True).
Proof.
  destruct search_response as [| | |l]; try apply keeps_read.
  cbn [Store.sources_list_of].
  eapply keeps_bind; [apply keeps_read|]. intros [responses|d] _.
  - eapply keeps_bind; [apply keeps_alloc|]. intros sources_list Hl.
    eapply keeps_bind; [by apply extend_loop_keeps|]. intros _ _.
    by apply keeps_ret.
  - apply keeps_read.
Qed.

Lemma dedup_loop_keeps sources unique_sources :
  h0 !! unique_sources = None ->
  Store.keeps h0 (Store.dedup_loop sources unique_sources) (fun _ => True).
Proof.
  intros Hl. induction sources as [|source sources IH];
    cbn [Store.dedup_loop]; [by apply keeps_ret|].
  eapply keeps_bind; [apply keeps_read|]. intros url _.
  eapply keeps_bind; [apply keeps_read|]. intros key _.
  eapply keeps_bind; [apply keeps_read|]. intros [] _; [done|].
  eapply keeps_bind; [by apply keeps_setitem|]. by intros _ _.
Qed.

Lemma raw_content_block_keeps source t :
  Store.keeps h0 (Store.raw_content_block source t) (fun _ => True).
Proof.
  unfold Store.raw_content_block.
  eapply keeps_bind; [apply keeps_read|]. intros raw _.
  eapply (keeps_bind _ _ (fun _ => True)).
  - destruct raw; try by apply keeps_ret.
    eapply keeps_bind; [apply keeps_read|]. intros url _.
    eapply keeps_bind; [apply keeps_print|]. intros _ _. by apply keeps_ret.
  - intros raw' _.
    eapply keeps_bind; [apply keeps_read|]. intros len _.
    eapply keeps_bind; [apply keeps_read|]. intros raw'' _.
    eapply keeps_bind; [apply keeps_read|]. intros s _. by apply keeps_ret.
Qed.

Lemma source_block_keeps source t b :
  Store.keeps h0 (Store.source_block source t b) (fun _ => True).
Proof.
  unfold Store.source_block, Store.field_str.
  eapply keeps_bind; [apply keeps_read|]. intros title _.
  eapply keeps_bind; [apply keeps_read|]. intros url _.
  eapply keeps_bind; [apply keeps_read|]. intros content _.
  destruct b; [|by apply keeps_ret].
  eapply keeps_bind; [apply raw_content_block_keeps|]. intros raw _.
  by apply keeps_ret.
Qed.

Lemma format_loop_keeps sources t b text :
  Store.keeps h0 (Store.format_loop sources t b text) (fun _ => True).
Proof.
  revert text. induction sources as [|source sources IH]; intros text;
    cbn [Store.format_loop]; [by apply keeps_ret|].
  eapply keeps_bind; [apply source_block_keeps|]. intros block _. apply IH.
Qed.

Lemma deduplicate_and_format_sources_keeps search_response t b :
  Store.keeps h0 (Store.deduplicate_and_format_sources search_response t b)
    (fun _ => True).
Proof.
  unfold Store.deduplicate_and_format_sources.
  eapply keeps_bind; [apply sources_list_of_keeps|]. intros sources_list _.
  eapply keeps_bind; [apply keeps_alloc|]. intros unique_sources Hl.
  eapply keeps_bind; [apply keeps_read|]. intros sources _.
  eapply keeps_bind; [by apply dedup_loop_keeps|]. intros _ _.
  eapply keeps_bind; [apply keeps_read|]. intros values _.
  eapply keeps_bind; [apply format_loop_keeps|]. intros text _.
  by apply keeps_ret.
Qed.

End keeps.

Lemma store_kept (h : Store.store) search_response t b :
  h ⊆ (Store.deduplicate_and_format_sources search_response t b h).1.
Proof. by apply (deduplicate_and_format_sources_keeps h search_response t b h). Qed.

(** The call on the example: it returns what the embedding over plain
    values returns, and it leaves a new object in the store, the
    deduplication map, which refers to the first record. *)
Example example_call :
  (Store.deduplicate_and_format_sources (Store.VRef 3%nat) 10 true example_store).2
  = deduplicate_and_format_sources
      (collection [record (str "A") (str "u1") (str "c1");
                   record (str "B") (str "u1") (str "c2")]) 10 true
  /\ (Store.deduplicate_and_format_sources (Store.VRef 3%nat) 10 true example_store).1
     !! 4%nat = Some (Store.ODict [(KStr (lit "u1"), Store.VRef 0%nat)]).
Proof. split; vm_compute; reflexivity. Qed.

(** ** The two embeddings agree *)

Section refines.
Context (h0 : Store.store).

Lemma represents_list pvs v :
  represents h0 (VList pvs) v
  <-> exists l items,
        v = Store.VRef l /\ h0 !! l = Some (Store.OList items)
        /\ Forall2 (represents h0) pvs items.
Proof.
  cbn [represents]. apply exist_proper; intros l.
  apply exist_proper; intros items.
  do 2 (apply and_iff_compat_l). revert items.
  induction pvs as [|pv pvs IH]; intros [|x items]; split;
    try done; try by inversion 1.
  - intros [? ?%IH]. by constructor.
  - inversion 1; subst. split; [done|]. by apply IH.
Qed.

Lemma represents_dict d v :
  represents h0 (VDict d) v
  <-> exists l od,
        v = Store.VRef l /\ h0 !! l = Some (Store.ODict od)
        /\ Forall2 (fun kpv kx => kx.1 = KStr kpv.1 /\ represents h0 kpv.2 kx.2)
             d od.
Proof.
  cbn [represents]. apply exist_proper; intros l.
  apply exist_proper; intros od.
  do 2 (apply and_iff_compat_l). revert od.
  induction d as [|[k pv] d IH]; intros [|[k' x] od]; split;
    try done; try by inversion 1.
  - intros (? & ? & ?%IH). by constructor.
  - inversion 1 as [|? ? ? ? [? ?]]; subst. split_and!; [done..|]. by apply IH.
Qed.

Lemma lookup_key_refines d od key :
  Forall2 (fun kpv kx => kx.1 = KStr kpv.1 /\ represents h0 kpv.2 kx.2) d od ->
  match lookup_key key d, Store.lookup_key (KStr key) od with
  | Some pv, Some x => represents h0 pv x
  | None, None => True
  | _, _ => False
  end.
Proof.
  induction 1 as [|[k pv] [k' x] d od [Hk Hx] _ IH]; [done|].
  cbn in Hk, Hx. subst k'. cbn [lookup_key Store.lookup_key].
  destruct (decide (k = key)) as [->|Hne].
  - by rewrite decide_True.
  - rewrite decide_False by congruence. done.
Qed.

Context (h : Store.store) (Hh : h0 ⊆ h).

Lemma deref_weaken l o : h0 !! l = Some o -> Store.deref l h = Ok o.
Proof.
  intros Hl. unfold Store.deref.
  assert (h !! l = Some o) as E by (by eapply lookup_weaken). by rewrite E.
Qed.

Lemma subscript_refines pv v key :
  represents h0 pv v ->
  res_rel (represents h0) (subscript pv key) (Store.subscript v key h).
Proof.
  destruct pv as [| | |pvs|d].
  - by intros ->.
  - by intros ->.
  - by intros ->.
  - intros (l & items & -> & Hl & _)%represents_list.
    cbn [Store.subscript]. by rewrite (deref_weaken _ _ Hl).
  - intros (l & od & -> & Hl & Hd)%represents_dict.
    cbn [Store.subscript subscript]. rewrite (deref_weaken _ _ Hl). cbn [bind].
    pose proof (lookup_key_refines d od key Hd) as H.
    by destruct (lookup_key key d), (Store.lookup_key (KStr key) od).
Qed.

Lemma dict_get_refines pv v key pdefault default :
  represents h0 pv v -> represents h0 pdefault default ->
  res_rel (represents h0) (dict_get pv key pdefault)
    (Store.dict_get v key default h).
Proof.
  intros Hv Hdef. destruct pv as [| | |pvs|d].
  - by rewrite Hv.
  - by rewrite Hv.
  - by rewrite Hv.
  - apply represents_list in Hv as (l & items & -> & Hl & _).
    cbn [Store.dict_get]. by rewrite (deref_weaken _ _ Hl).
  - apply represents_dict in Hv as (l & od & -> & Hl & Hd).
    cbn [Store.dict_get dict_get]. rewrite (deref_weaken _ _ Hl). cbn [bind].
    pose proof (lookup_key_refines d od key Hd) as H.
    by destruct (lookup_key key d), (Store.lookup_key (KStr key) od).
Qed.

Lemma is_dict_with_refines pv v key :
  represents h0 pv v ->
  Store.is_dict_with key v h = Ok (is_dict_with key pv).
Proof.
  destruct pv as [| | |pvs|d].
  - by intros ->.
  - by intros ->.
  - by intros ->.
  - intros (l & items & -> & Hl & _)%represents_list.
    cbn [Store.is_dict_with]. by rewrite (deref_weaken _ _ Hl).
  - intros (l & od & -> & Hl & Hd)%represents_dict.
    cbn [Store.is_dict_with is_dict_with]. rewrite (deref_weaken _ _ Hl).
    cbn [bind]. f_equal.
    pose proof (lookup_key_refines d od key Hd) as H.
    by destruct (lookup_key key d), (Store.lookup_key (KStr key) od).
Qed.

Lemma py_iter_refines pv v :
  represents h0 pv v ->
  res_rel (Forall2 (represents h0)) (py_iter pv) (Store.py_iter v h).
Proof.
  destruct pv as [| |s|pvs|d].
  - by intros ->.
  - by intros ->.
  - intros ->. cbn. induction s; by constructor.
  - intros (l & items & -> & Hl & Hi)%represents_list.
    cbn [Store.py_iter]. by rewrite (deref_weaken _ _ Hl).
  - intros (l & od & -> & Hl & Hd)%represents_dict.
    cbn [Store.py_iter py_iter]. rewrite (deref_weaken _ _ Hl). cbn.
    clear Hl. induction Hd as [|[k pv] [k' x] d od [Hk _] _ IH]; [constructor|].
    cbn in *. subst. by constructor.
Qed.

Lemma py_len_refines pv v :
  represents h0 pv v -> res_rel eq (py_len pv) (Store.py_len v h).
Proof.
  destruct pv as [| |s|pvs|d].
  - by intros ->.
  - by intros ->.
  - by intros ->.
  - intros (l & items & -> & Hl & Hi)%represents_list.
    cbn [Store.py_len]. rewrite (deref_weaken _ _ Hl). cbn.
    by rewrite (Forall2_length _ _ _ Hi).
  - intros (l & od & -> & Hl & Hd)%represents_dict.
    cbn [Store.py_len]. rewrite (deref_weaken _ _ Hl). cbn.
    by rewrite (Forall2_length _ _ _ Hd).
Qed.

Lemma py_str_refines pv v :
  represents h0 pv v -> res_rel eq (py_str pv) (Store.py_str v).
Proof.
  destruct pv as [| |s|pvs|d].
  - by intros ->.
  - by intros ->.
  - by intros ->.
  - by intros (l & items & -> & _)%represents_list.
  - by intros (l & od & -> & _)%represents_dict.
Qed.

Lemma truncate_refines pv v k :
  represents h0 pv v ->
  res_rel (represents h0) (truncate pv k) (Store.truncate v k h).
Proof.
  destruct pv as [| |s|pvs|d].
  - by intros ->.
  - by intros ->.
  - by intros ->.
  - intros (l & items & -> & Hl & _)%represents_list.
    cbn [Store.truncate]. by rewrite (deref_weaken _ _ Hl).
  - intros (l & od & -> & Hl & _)%represents_dict.
    cbn [Store.truncate]. by rewrite (deref_weaken _ _ Hl).
Qed.

Lemma to_key_refines pv v :
  represents h0 pv v -> res_rel eq (to_key pv) (Store.to_key v h).
Proof.
  destruct pv as [| |s|pvs|d].
  - by intros ->.
  - by intros ->.
  - by intros ->.
  - intros (l & items & -> & Hl & _)%represents_list.
    cbn [Store.to_key]. by rewrite (deref_weaken _ _ Hl).
  - intros (l & od & -> & Hl & _)%represents_dict.
    cbn [Store.to_key]. by rewrite (deref_weaken _ _ Hl).
Qed.

End refines.

Section refines_reads.
Context (h0 h : Store.store) (Hh : h0 ⊆ h).

Lemma pure_rel_read {A B : Type} (R : B -> A -> Prop)
    (f : Store.store -> res A) (r : res B) :
  res_rel R r (f h) -> pure_rel R (Store.read f h) h (lift r).
Proof. by intros H. Qed.

Lemma pure_rel_ret {A B : Type} (R : B -> A -> Prop) (a : A) (b : B) :
  R b a -> pure_rel R (Store.ret a h) h (ret b).
Proof. by intros H. Qed.

Lemma pure_rel_print line : pure_rel eq (Store.print line h) h (print line).
Proof. done. Qed.

Lemma pure_rel_bind {A B A' B' : Type} (R : B -> A -> Prop) (S : B' -> A' -> Prop)
    (m : Store.M A) (k : A -> Store.M A') (mp : io B) (kp : B -> io B') :
  pure_rel R (m h) h mp ->
  (forall a b, R b a -> pure_rel S (k a h) h (kp b)) ->
  pure_rel S (Store.bind m k h) h (io_bind mp kp).
Proof.
  unfold pure_rel, Store.bind. intros (H1 & H2 & H3) Hk.
  destruct (m h) as [h' [out r]], mp as [pout pr]. cbn [fst snd] in *. subst.
  destruct pr as [b| |], r as [a| |]; try done.
  destruct (Hk a b H3) as (H4 & H5 & H6). rewrite io_bind_ok.
  destruct (k a h) as [h'' [out' r']]. cbn [fst snd] in *. by subst.
Qed.

Lemma pure_rel_eq {A : Type} (x : Store.store * io A) (y : io A) :
  pure_rel eq x h y -> x = (h, y).
Proof.
  destruct x as [h' [out r]], y as [pout pr]. intros (H1 & H2 & H3).
  cbn [fst snd] in *. subst. do 2 f_equal.
  destruct pr, r; cbn in H3; by subst.
Qed.

Lemma field_str_refines psource source field :
  represents h0 psource source ->
  pure_rel eq (Store.field_str source field h) h (lift (field_str psource field)).
Proof.
  intros Hs. apply pure_rel_read. unfold field_str.
  pose proof (subscript_refines h0 h Hh psource source field Hs) as H.
  destruct (subscript psource field) as [pv| |],
    (Store.subscript source field h) as [v| |]; try done.
  by apply (py_str_refines h0).
Qed.

Lemma raw_content_block_refines psource source t :
  represents h0 psource source ->
  pure_rel eq (Store.raw_content_block source t h) h
    (raw_content_block psource t).
Proof.
  intros Hs. unfold Store.raw_content_block, raw_content_block.
  eapply (pure_rel_bind (represents h0)).
  { apply pure_rel_read. by apply (dict_get_refines h0 h Hh). }
  intros raw praw Hraw. eapply (pure_rel_bind (represents h0)).
  { destruct praw as [| |s|pvs|d].
    - rewrite Hraw. eapply (pure_rel_bind eq).
      { by apply field_str_refines. }
      intros url purl <-. eapply (pure_rel_bind eq); [apply pure_rel_print|].
      intros _ _ _. by apply pure_rel_ret.
    - rewrite Hraw. by apply pure_rel_ret.
    - rewrite Hraw. by apply pure_rel_ret.
    - pose proof Hraw as (l & items & -> & _)%represents_list.
      by apply pure_rel_ret.
    - pose proof Hraw as (l & od & -> & _)%represents_dict.
      by apply pure_rel_ret. }
  intros raw' praw' Hraw'. eapply (pure_rel_bind eq).
  { apply pure_rel_read. by apply (py_len_refines h0 h Hh). }
  intros len plen <-. eapply (pure_rel_bind (represents h0)).
  { apply pure_rel_read. destruct (_ <? _); [by apply (truncate_refines h0 h Hh)|done]. }
  intros raw'' praw'' Hraw''. eapply (pure_rel_bind eq).
  { apply pure_rel_read. by apply (py_str_refines h0). }
  intros s ps <-. by apply pure_rel_ret.
Qed.

Lemma source_block_refines psource source t b :
  represents h0 psource source ->
  pure_rel eq (Store.source_block source t b h) h (source_block psource t b).
Proof.
  intros Hs. unfold Store.source_block, source_block.
  eapply (pure_rel_bind eq); [by apply field_str_refines|]. intros title ? <-.
  eapply (pure_rel_bind eq); [by apply field_str_refines|]. intros url ? <-.
  eapply (pure_rel_bind eq); [by apply field_str_refines|]. intros content ? <-.
  destruct b; [|by apply pure_rel_ret].
  eapply (pure_rel_bind eq); [by apply raw_content_block_refines|].
  intros raw ? <-. by apply pure_rel_ret.
Qed.

Lemma format_loop_refines psources sources t b text :
  Forall2 (represents h0) psources sources ->
  pure_rel eq (Store.format_loop sources t b text h) h
    (format_loop psources t b text).
Proof.
  intros H. revert text.
  induction H as [|psource source psources sources Hs _ IH]; intros text.
  - by apply pure_rel_ret.
  - cbn [Store.format_loop format_loop].
    eapply (pure_rel_bind eq); [by apply source_block_refines|].
    intros block ? <-. apply IH.
Qed.

End refines_reads.

(** Running [Store.bind]. *)
Lemma bind_read {A B : Type} (f : Store.store -> res A) (k : A -> Store.M B) h :
  Store.bind (Store.read f) k h =
    match f h with
    | Ok a => k a h
    | Raise e => (h, ([], Raise e))
    | OutOfModel => (h, ([], OutOfModel))
    end.
Proof.
  unfold Store.bind, Store.read. destruct (f h) as [a| |]; try done.
  by destruct (k a h) as [h' [out r]].
Qed.

Lemma bind_run {A B : Type} (m : Store.M A) (k : A -> Store.M B) h h' r :
  m h = (h', ([], r)) ->
  Store.bind m k h =
    match r with
    | Ok a => k a h'
    | Raise e => (h', ([], Raise e))
    | OutOfModel => (h', ([], OutOfModel))
    end.
Proof.
  unfold Store.bind. intros ->. destruct r as [a| |]; try done.
  by destruct (k a h') as [h'' [out r]].
Qed.

Lemma bind_alloc {B : Type} o (k : Store.loc -> Store.M B) h :
  Store.bind (Store.alloc o) k h = k (fresh (dom h)) (<[fresh (dom h) := o]> h).
Proof. by apply (bind_run _ _ _ _ (Ok _)). Qed.

Lemma bind_extend {B : Type} l items old (k : unit -> Store.M B) (h : Store.store) :
  h !! l = Some (Store.OList old) ->
  Store.bind (Store.extend l items) k h =
    k tt (<[l := Store.OList (old ++ items)]> h).
Proof.
  intros Hl. apply (bind_run _ _ _ _ (Ok tt)). unfold Store.extend. by rewrite Hl.
Qed.

Lemma bind_setitem {B : Type} l key v d (k : unit -> Store.M B) (h : Store.store) :
  h !! l = Some (Store.ODict d) ->
  Store.bind (Store.setitem l key v) k h =
    k tt (<[l := Store.ODict (Store.set_key key v d)]> h).
Proof.
  intros Hl. apply (bind_run _ _ _ _ (Ok tt)). unfold Store.setitem. by rewrite Hl.
Qed.

Lemma set_key_new key v d :
  Store.lookup_key key d = None -> Store.set_key key v d = d ++ [(key, v)].
Proof.
  induction d as [|[k x] d IH]; [done|]. cbn [Store.lookup_key Store.set_key].
  destruct (decide (k = key)); [done|]. intros H. by rewrite IH.
Qed.

Section refines_loops.
Context (h0 : Store.store).

#[local] Abbreviation list_rel := (list_rel h0).
#[local] Abbreviation dict_rel := (dict_rel h0).

Lemma extend_loop_refines presponses responses sources_list :
  Forall2 (represents h0) presponses responses ->
  h0 !! sources_list = None ->
  forall (h : Store.store) pacc o,
    h0 ⊆ h -> h !! sources_list = Some o -> list_rel pacc o ->
    fills h0 sources_list list_rel (extend_loop presponses pacc)
      (Store.extend_loop responses sources_list h).
Proof.
  intros H Hsl.
  induction H as [|presponse response presponses responses Hr _ IH];
    intros h pacc o Hh Hl Ho.
  - cbn. eauto.
  - destruct Ho as (acc & -> & Hacc).
    assert (forall pitems items,
              Forall2 (represents h0) pitems items ->
              fills h0 sources_list list_rel
                (extend_loop presponses (pacc ++ pitems))
                (Store.extend_loop responses sources_list
                   (<[sources_list := Store.OList (acc ++ items)]> h))) as Hstep.
    { intros pitems items Hi. eapply IH.
      - by apply insert_subseteq_r.
      - apply lookup_insert_eq.
      - eexists. split; [done|]. by apply Forall2_app. }
    cbn [extend_loop Store.extend_loop].
    rewrite bind_read, (is_dict_with_refines h0 h Hh presponse) by done.
    destruct (is_dict_with (lit "results") presponse).
    + rewrite bind_read.
      pose proof (subscript_refines h0 h Hh presponse response (lit "results") Hr)
        as Hs.
      destruct (subscript presponse (lit "results")) as [pres| |],
        (Store.subscript response (lit "results") h) as [res| |];
        try done; [|by cbn in *; subst].
      cbn [bind]. rewrite bind_read.
      pose proof (py_iter_refines h0 h Hh pres res Hs) as Hi.
      destruct (py_iter pres) as [pitems| |], (Store.py_iter res h) as [items| |];
        try done; [|by cbn in *; subst].
      cbn [bind]. rewrite (bind_extend _ _ acc) by done. by apply Hstep.
    + rewrite bind_read.
      pose proof (py_iter_refines h0 h Hh presponse response Hr) as Hi.
      destruct (py_iter presponse) as [pitems| |],
        (Store.py_iter response h) as [items| |];
        try done; [|by cbn in *; subst].
      cbn [bind]. rewrite (bind_extend _ _ acc) by done. by apply Hstep.
Qed.

Lemma contains_refines pacc ud key :
  Forall2 (fun pk k => k.1 = pk.1 /\ represents h0 pk.2 k.2) pacc ud ->
  bool_decide (is_Some (Store.lookup_key key ud)) = contains key pacc
  /\ (contains key pacc = false -> Store.lookup_key key ud = None).
Proof.
  unfold contains.
  induction 1 as [|[pk pv] [k v] pacc ud [Hk _] _ [IH1 IH2]]; [done|].
  cbn in Hk. subst k. cbn [Store.lookup_key fmap list_fmap fst].
  destruct (decide (pk = key)) as [->|Hne].
  - split.
    + rewrite !bool_decide_true; [done|apply list_elem_of_here|eauto].
    + rewrite bool_decide_true by apply list_elem_of_here. done.
  - split.
    + rewrite IH1. apply bool_decide_ext. rewrite elem_of_cons.
      split; [by right|]. by intros [->|?].
    + intros Hc. apply IH2. apply bool_decide_eq_false in Hc.
      apply bool_decide_eq_false. intros Hin. apply Hc.
      by apply list_elem_of_further.
Qed.

Lemma dedup_loop_refines psources sources unique_sources :
  Forall2 (represents h0) psources sources ->
  h0 !! unique_sources = None ->
  forall (h : Store.store) pacc o,
    h0 ⊆ h -> h !! unique_sources = Some o -> dict_rel pacc o ->
    fills h0 unique_sources dict_rel (dedup_loop psources pacc)
      (Store.dedup_loop sources unique_sources h).
Proof.
  intros H Hus.
  induction H as [|psource source psources sources Hs _ IH];
    intros h pacc o Hh Hl Ho.
  - cbn. eauto.
  - pose proof Ho as (ud & -> & Hud).
    cbn [dedup_loop Store.dedup_loop]. rewrite bind_read.
    pose proof (subscript_refines h0 h Hh psource source (lit "url") Hs) as Hu.
    destruct (subscript psource (lit "url")) as [purl| |],
      (Store.subscript source (lit "url") h) as [url| |];
      try done; [|by cbn in *; subst].
    cbn [bind]. rewrite bind_read.
    pose proof (to_key_refines h0 h Hh purl url Hu) as Hk.
    destruct (to_key purl) as [key| |], (Store.to_key url h) as [key'| |];
      try done; [|by cbn in *; subst].
    cbn in Hk. subst key'. cbn [bind]. rewrite bind_read.
    unfold Store.contains, Store.deref. rewrite Hl. cbn [bind].
    destruct (contains_refines pacc ud key Hud) as [Hc Hnone]. rewrite Hc.
    destruct (contains key pacc).
    + by eapply IH.
    + rewrite (bind_setitem _ _ _ ud) by done. eapply IH.
      * by apply insert_subseteq_r.
      * apply lookup_insert_eq.
      * eexists. split; [done|]. rewrite set_key_new by auto.
        apply Forall2_app; [done|]. by repeat constructor.
Qed.

End refines_loops.

Lemma deref_lookup (h : Store.store) l o :
  h !! l = Some o -> Store.deref l h = Ok o.
Proof. intros Hl. unfold Store.deref. by rewrite Hl. Qed.

Lemma sources_list_of_refines (h : Store.store) pv v :
  represents h pv v ->
  match sources_list_of pv with
  | Ok pvx =>
      exists h' x,
        Store.sources_list_of v h = (h', ([], Ok x)) /\ h ⊆ h'
        /\ forall h'' : Store.store,
             h' ⊆ h'' ->
             res_rel (Forall2 (represents h)) (py_iter pvx) (Store.py_iter x h'')
  | Raise e => exists h', Store.sources_list_of v h = (h', ([], Raise e))
  | OutOfModel => exists h', Store.sources_list_of v h = (h', ([], OutOfModel))
  end.
Proof.
  destruct pv as [| |s|pvs|d].
  - intros ->. by exists h.
  - intros ->. by exists h.
  - intros ->. by exists h.
  - intros (l & items & -> & Hl & Hi)%represents_list.
    cbn [sources_list_of Store.sources_list_of].
    rewrite bind_read, (deref_lookup _ _ _ Hl), bind_alloc.
    set (sl := fresh (dom h)).
    assert (h !! sl = None) as Hsl by apply not_elem_of_dom, is_fresh.
    pose proof (extend_loop_refines h pvs items sl Hi Hsl
                  (<[sl := Store.OList []]> h) [] (Store.OList [])) as H.
    destruct (extend_loop pvs []) as [pacc| |].
    + destruct H as (o & E & Hsub & Ho & acc & -> & Hacc).
      * by apply insert_subseteq_r.
      * apply lookup_insert_eq.
      * by exists [].
      * destruct (Store.extend_loop items sl _) as [h' io'] eqn:Ee.
        cbn [fst snd] in *. subst io'. rewrite (bind_run _ _ _ _ _ Ee).
        exists h', (Store.VRef sl). split_and!; [done..|].
        intros h'' Hh''. cbn [bind py_iter Store.py_iter]. unfold Store.deref.
        assert (h'' !! sl = Some (Store.OList acc)) as -> by by eapply lookup_weaken.
        done.
    + cbn in H. destruct (Store.extend_loop items sl _) as [h' io'] eqn:Ee.
      cbn [fst snd] in *.
      assert (io' = ([], Raise e)) as ->.
      { apply H; [by apply insert_subseteq_r|apply lookup_insert_eq|by exists []]. }
      rewrite (bind_run _ _ _ _ _ Ee). by exists h'.
    + cbn in H. destruct (Store.extend_loop items sl _) as [h' io'] eqn:Ee.
      cbn [fst snd] in *.
      assert (io' = ([], OutOfModel)) as ->.
      { apply H; [by apply insert_subseteq_r|apply lookup_insert_eq|by exists []]. }
      rewrite (bind_run _ _ _ _ _ Ee). by exists h'.
  - intros Hv. pose proof Hv as (l & od & -> & Hl & Hd)%represents_dict.
    cbn [sources_list_of Store.sources_list_of].
    rewrite bind_read, (deref_lookup _ _ _ Hl). unfold Store.read.
    pose proof (subscript_refines h h (reflexivity h) _ _ (lit "results") Hv) as Hs.
    destruct (subscript (VDict d) (lit "results")) as [pres| |],
      (Store.subscript (Store.VRef l) (lit "results") h) as [res| |]; try done.
    + exists h, res. split_and!; [done..|]. intros h'' Hh''.
      by apply py_iter_refines.
    + cbn in Hs. subst. by exists h.
    + by exists h.
Qed.

(** Property X16 (sharing plays no part).  The embedding over a store and
    the embedding over plain values return and print the same, on every
    input the store holds: what the call returns, prints and raises depends
    on the value of the input alone, not on which of its records and lists
    are one shared object. *)
Theorem store_refines (h : Store.store) pv v t b :
  represents h pv v ->
  (Store.deduplicate_and_format_sources v t b h).2 =
  deduplicate_and_format_sources pv t b.
Proof.
  intros Hv. unfold Store.deduplicate_and_format_sources,
    deduplicate_and_format_sources.
  pose proof (sources_list_of_refines h pv v Hv) as H.
  destruct (sources_list_of pv) as [pvx| |].
  2: { destruct H as [h' E]. by rewrite (bind_run _ _ _ _ _ E). }
  2: { destruct H as [h' E]. by rewrite (bind_run _ _ _ _ _ E). }
  destruct H as (h' & x & E & Hh' & Hiter).
  rewrite (bind_run _ _ _ _ _ E), bind_alloc, io_bind_lift_ok.
  set (us := fresh (dom h')).
  assert (h' !! us = None) as Hus' by apply not_elem_of_dom, is_fresh.
  assert (h !! us = None) as Hus by by eapply lookup_weaken_None.
  set (h2 := <[us := Store.ODict []]> h').
  assert (h' ⊆ h2) as Hh2 by by apply insert_subseteq_r.
  rewrite bind_read. specialize (Hiter h2 Hh2).
  destruct (py_iter pvx) as [psources| |], (Store.py_iter x h2) as [sources| |];
    try done; [|by cbn in *; subst].
  cbn [bind].
  pose proof (dedup_loop_refines h psources sources us Hiter Hus h2 []
                (Store.ODict [])) as H.
  destruct (Store.dedup_loop sources us h2) as [h3 io3] eqn:Ed.
  destruct (dedup_loop psources []) as [pacc| |]; cbn [fills fst snd] in H.
  - destruct H as (o & -> & Hh3 & Ho & ud & -> & Hud).
    + by etrans.
    + apply lookup_insert_eq.
    + by exists [].
    + rewrite (bind_run _ _ _ _ _ Ed), bind_read, io_bind_lift_ok.
      unfold Store.values, Store.deref. rewrite Ho. cbn [bind].
      assert (Forall2 (represents h) pacc.*2 ud.*2) as Hvals.
      { clear -Hud. induction Hud as [|? ? ? ? [_ ?]]; by constructor. }
      pose proof (pure_rel_eq h3 _ _
        (format_loop_refines h h3 Hh3 _ _ t b (lit "Sources:" ++ nl ++ nl) Hvals))
        as Ef.
      unfold Store.bind. rewrite Ef.
      by destruct (format_loop _ _ _ _) as [out [s| |]].
  - assert (io3 = ([], Raise e)) as ->.
    { apply H; [by etrans|apply lookup_insert_eq|by exists []]. }
    by rewrite (bind_run _ _ _ _ _ Ed).
  - assert (io3 = ([], OutOfModel)) as ->.
    { apply H; [by etrans|apply lookup_insert_eq|by exists []]. }
    by rewrite (bind_run _ _ _ _ _ Ed).
Qed.

Lemma represents_weaken (h h' : Store.store) pv v :
  h ⊆ h' -> represents h pv v -> represents h' pv v.
Proof.
  intros Hh. revert v.
  induction pv as [| | |pvs IH|d IH] using pyval_ind'; intros v; try done.
  - rewrite !represents_list. intros (l & items & -> & Hl & Hi).
    exists l, items. split_and!; [done|by eapply lookup_weaken|].
    clear Hl. induction Hi as [|pv x pvs items Hx _ IHi]; [constructor|].
    apply Forall_cons in IH as [IH1 IH2]. constructor; auto.
  - rewrite !represents_dict. intros (l & od & -> & Hl & Hd).
    exists l, od. split_and!; [done|by eapply lookup_weaken|].
    clear Hl. induction Hd as [|kpv kx d od [Hk Hx] _ IHd]; [constructor|].
    apply Forall_cons in IH as [IH1 IH2]. constructor; auto.
Qed.

(** C9: [deduplicate_and_format_sources] does not mutate its input: every
    object of the store it is called in (the records, the lists and
    mappings that hold them, and any other) is in the store it leaves,
    unchanged, whatever the input and however the call ends; so the input
    stands for the same records and collections after the call as before. *)
Theorem input_not_mutated :
  (forall (h : Store.store) search_response t b l o,
     h !! l = Some o ->
     (Store.deduplicate_and_format_sources search_response t b h).1 !! l = Some o)
  /\ (forall (h : Store.store) pv search_response t b,
        represents h pv search_response ->
        represents (Store.deduplicate_and_format_sources search_response t b h).1
          pv search_response).
Proof.
  split.
  - intros h search_response t b l o Hl.
    by eapply lookup_weaken, store_kept.
  - intros h pv search_response t b. apply represents_weaken, store_kept.
Qed.

Lemma input_not_mutated_witness :
  let h' :=
    (Store.deduplicate_and_format_sources (Store.VRef 3%nat) 10 true
       example_store).1 in
  h' !! 1%nat = Some (example_record "B" "u1" "c2")
  /\ represents h'
       (collection [record (str "A") (str "u1") (str "c1");
                    record (str "B") (str "u1") (str "c2")])
       (Store.VRef 3%nat).
Proof.
  intros h'. split.
  - apply (proj1 input_not_mutated). reflexivity.
  - apply (proj2 input_not_mutated).
    apply represents_dict. eexists 3%nat, _. split_and!; [reflexivity..|].
    constructor; [|constructor]. split; [reflexivity|].
    apply represents_list. eexists 2%nat, _. split_and!; [reflexivity..|].
    constructor; [|constructor; [|constructor]].
    + apply represents_dict. eexists 0%nat, _. split_and!; [reflexivity..|].
      repeat constructor.
    + apply represents_dict. eexists 1%nat, _. split_and!; [reflexivity..|].
      repeat constructor.
Defined.

(** * Further properties *)

(** ** [read_pdf] *)

Lemma read_pdf_loop_texts {page : Type} (extract_text : page -> res pystr)
    pages texts (n : nat) pdf_text :
  Forall2 (fun p text => extract_text p = Ok text) pages texts ->
  read_pdf_loop page extract_text pages (Z.of_nat n) pdf_text =
    Ok (pdf_text ++ concat (imap (fun i text => page_text (S (n + i)) text) texts)).
Proof.
  intros H. revert n pdf_text.
  induction H as [|p text pages texts Hp _ IH]; intros n pdf_text.
  - cbn. by rewrite app_nil_r.
  - cbn [read_pdf_loop]. rewrite Hp. cbn [bind].
    replace (Z.of_nat n + 1) with (Z.of_nat (S n)) by lia.
    rewrite IH. cbn [imap concat]. f_equal.
    rewrite <- !app_assoc. f_equal. unfold page_text at 2.
    rewrite Nat.add_0_r, <- !app_assoc. do 5 f_equal.
    apply imap_ext. intros i text' _. cbn. do 2 f_equal. lia.
Qed.

(** Property X1 ([read_pdf], closed form).  When the file opens and every
    page gives its text, [read_pdf] returns the texts of the pages in page
    order, each followed by a line break and [Page Number: k], where [k]
    counts the pages from 1; nothing separates a marker from the text of
    the next page, and a file without pages gives the empty string. *)
Theorem read_pdf_pages (page : Type) (PdfReader : pystr -> res (list page))
    (extract_text : page -> res pystr) filepath pages texts :
  PdfReader filepath = Ok pages ->
  Forall2 (fun p text => extract_text p = Ok text) pages texts ->
  read_pdf page PdfReader extract_text filepath =
    Ok (concat (imap (fun i text => page_text (S i) text) texts)).
Proof.
  intros Hopen Htexts. unfold read_pdf. rewrite Hopen. cbn [bind].
  apply (read_pdf_loop_texts extract_text pages texts 0 [] Htexts).
Qed.

Lemma read_pdf_pages_witness :
  read_pdf pystr (fun _ => Ok [lit "a"; lit "b"]) Ok (lit "x.pdf") =
    Ok (lit "a" ++ nl ++ lit "Page Number: 1" ++ lit "b" ++ nl
        ++ lit "Page Number: 2").
Proof.
  apply (read_pdf_pages pystr (fun _ => Ok [lit "a"; lit "b"]) Ok (lit "x.pdf")
           [lit "a"; lit "b"] [lit "a"; lit "b"]).
  - reflexivity.
  - repeat constructor.
Defined.

Lemma read_pdf_loop_fails {page : Type} (extract_text : page -> res pystr)
    pre bad post e n pdf_text :
  Forall (fun p => exists text, extract_text p = Ok text) pre ->
  extract_text bad = Raise e ->
  read_pdf_loop page extract_text (pre ++ bad :: post) n pdf_text = Raise e.
Proof.
  intros Hpre Hbad. revert n pdf_text.
  induction Hpre as [|p pre [text Hp] _ IH]; intros n pdf_text.
  - cbn. by rewrite Hbad.
  - cbn [app read_pdf_loop]. rewrite Hp. cbn [bind]. apply IH.
Qed.

(** Property X2 ([read_pdf], failure).  [read_pdf] fails with the exception
    of the reader when the file cannot be opened, and with the exception of
    the first page whose text cannot be extracted: the text of the pages
    before it is not returned, and the pages after it play no part. *)
Theorem read_pdf_fails (page : Type) (PdfReader : pystr -> res (list page))
    (extract_text : page -> res pystr) filepath e :
  (PdfReader filepath = Raise e ->
   read_pdf page PdfReader extract_text filepath = Raise e)
  /\ (forall pre bad post,
        PdfReader filepath = Ok (pre ++ bad :: post) ->
        Forall (fun p => exists text, extract_text p = Ok text) pre ->
        extract_text bad = Raise e ->
        read_pdf page PdfReader extract_text filepath = Raise e).
Proof.
  split.
  - intros Hopen. unfold read_pdf. by rewrite Hopen.
  - intros pre bad post Hopen Hpre Hbad. unfold read_pdf. rewrite Hopen.
    cbn [bind]. by apply read_pdf_loop_fails.
Qed.

Lemma read_pdf_fails_witness :
  read_pdf (option pystr) (fun _ => Ok ([Some (lit "a")] ++ None :: [Some (lit "b")]))
    (fun p => match p with Some text => Ok text | None => Raise ValueError end)
    (lit "x.pdf") = Raise ValueError.
Proof.
  apply (proj2 (read_pdf_fails (option pystr)
                  (fun _ => Ok ([Some (lit "a")] ++ None :: [Some (lit "b")]))
                  (fun p => match p with
                            | Some text => Ok text
                            | None => Raise ValueError
                            end)
                  (lit "x.pdf") ValueError)
           [Some (lit "a")] None [Some (lit "b")]).
  - reflexivity.
  - constructor; [by eexists|constructor].
  - reflexivity.
Defined.

(** ** [arxiv_search] *)

Lemma results_loop_texts {page : Type} (PdfReader : pystr -> res (list page))
    (extract_text : page -> res pystr) (download_pdf : Arxiv.paper -> res pystr)
    papers texts results :
  Forall2 (fun p text =>
             exists filename,
               download_pdf p = Ok filename
               /\ read_pdf page PdfReader extract_text filename = Ok text)
    papers texts ->
  Arxiv.results_loop page PdfReader extract_text download_pdf papers (Ok tt) results
  = Ok (results ++ zip_with Arxiv.result papers texts).
Proof.
  intros H. revert results.
  induction H as [|p text papers texts (filename & Hd & Hr) _ IH]; intros results.
  - cbn. by rewrite app_nil_r.
  - cbn [Arxiv.results_loop]. rewrite Hd. cbn [bind]. rewrite Hr. cbn [bind].
    rewrite IH. cbn [zip_with]. by rewrite <- app_assoc.
Qed.

(** Property X3 ([arxiv_search], result).  When the client yields its papers
    and stops, and every paper's PDF is downloaded and read, [arxiv_search]
    returns a mapping whose [results] holds one record per paper, in the
    order the client yielded them: [title], [url] and [content] are the
    paper's title, PDF url and summary, and [raw_content] is the labelled
    attributes followed by the text [read_pdf] gave for that paper. *)
Theorem arxiv_search_results (page : Type) (PdfReader : pystr -> res (list page))
    (extract_text : page -> res pystr)
    (client_results : pystr -> Z -> list Arxiv.paper * res unit)
    (download_pdf : Arxiv.paper -> res pystr) query max_results papers texts :
  client_results query max_results = (papers, Ok tt) ->
  Forall2 (fun p text =>
             exists filename,
               download_pdf p = Ok filename
               /\ read_pdf page PdfReader extract_text filename = Ok text)
    papers texts ->
  Arxiv.arxiv_search page PdfReader extract_text client_results download_pdf
    query max_results
  = Ok (collection (zip_with Arxiv.result papers texts)).
Proof.
  intros Hc H. unfold Arxiv.arxiv_search. rewrite Hc.
  by rewrite (results_loop_texts _ _ _ _ _ [] H).
Qed.

Lemma arxiv_search_results_witness :
  let p := {| Arxiv.title := lit "T"; Arxiv.pdf_url := lit "u";
              Arxiv.summary := lit "S"; Arxiv.authors := [lit "A"; lit "B"];
              Arxiv.published := lit "2024"; Arxiv.updated := lit "2025";
              Arxiv.categories := [lit "cs.LG"]; Arxiv.entry_id := lit "id" |} in
  Arxiv.arxiv_search pystr (fun filename => Ok [filename]) Ok
    (fun _ _ => ([p], Ok tt)) (fun p => Ok (Arxiv.entry_id p)) (lit "q") 3
  = Ok (collection
          [record_raw (str "T") (str "u") (str "S")
             (VStr (lit "Title: T" ++ nl ++ lit "Authors: A, B" ++ nl
                    ++ lit "Published: 2024" ++ nl ++ lit "Updated: 2025" ++ nl
                    ++ lit "Categories: cs.LG" ++ nl ++ lit "Abstract: S" ++ nl
                    ++ lit "PDF URL: u" ++ nl ++ lit "ArXiv ID: id" ++ nl
                    ++ lit "Content: id" ++ nl ++ lit "Page Number: 1"))]).
Proof.
  intros p.
  apply (arxiv_search_results pystr (fun filename => Ok [filename]) Ok
           (fun _ _ => ([p], Ok tt)) (fun p => Ok (Arxiv.entry_id p)) (lit "q") 3
           [p] [lit "id" ++ nl ++ lit "Page Number: 1"]).
  - reflexivity.
  - constructor; [|constructor]. exists (lit "id"). split; reflexivity.
Defined.

Lemma results_loop_results {page : Type} (PdfReader : pystr -> res (list page))
    (extract_text : page -> res pystr) (download_pdf : Arxiv.paper -> res pystr)
    papers stop results results' :
  Forall (fun source => exists p text, source = Arxiv.result p text) results ->
  Arxiv.results_loop page PdfReader extract_text download_pdf papers stop results
  = Ok results' ->
  Forall (fun source => exists p text, source = Arxiv.result p text) results'.
Proof.
  revert results. induction papers as [|p papers IH]; intros results Hr.
  - cbn. destruct stop; [|done..]. cbn. by intros [= <-].
  - cbn [Arxiv.results_loop]. destruct (download_pdf p) as [filename| |]; [|done..].
    cbn [bind]. destruct (read_pdf _ _ _ _) as [text| |]; [|done..]. cbn [bind].
    apply IH. apply Forall_app. split; [done|].
    constructor; [by eexists _, _|constructor].
Qed.

Lemma source_block_result p text t b :
  exists block, source_block (Arxiv.result p text) t b = ([], Ok block).
Proof.
  unfold Arxiv.result. destruct b.
  - rewrite (source_block_raw _ (Arxiv.title p) (Arxiv.pdf_url p) (Arxiv.summary p))
      by reflexivity.
    rewrite (raw_content_block_str _ (Arxiv.raw_content p text)) by reflexivity.
    cbn [fst snd bind]. eauto.
  - rewrite (source_block_no_raw _ (Arxiv.title p) (Arxiv.pdf_url p)
               (Arxiv.summary p)) by reflexivity.
    eauto.
Qed.

Lemma format_loop_silent sources t b text :
  Forall (fun source => exists block, source_block source t b = ([], Ok block))
    sources ->
  exists rest, format_loop sources t b text = ([], Ok (text ++ rest)).
Proof.
  intros H. revert text. induction H as [|source sources [block Hb] _ IH];
    intros text.
  - exists []. cbn. by rewrite app_nil_r.
  - cbn [format_loop]. rewrite Hb, io_bind_ok.
    destruct (IH (text ++ block)) as [rest ->]. cbn [fst snd app].
    exists (block ++ rest). by rewrite app_assoc.
Qed.

Lemma bullet_result p text : exists line, bullet (Arxiv.result p text) = Ok line.
Proof.
  rewrite (bullet_title_url _ (Arxiv.title p, Arxiv.pdf_url p)) by reflexivity.
  eauto.
Qed.

Lemma bullets_all sources :
  Forall (fun source => exists line, bullet source = Ok line) sources ->
  exists lines, bullets sources = Ok lines /\ length lines = length sources.
Proof.
  induction 1 as [|source sources [line Hl] _ (lines & IH & Hlen)].
  - by exists [].
  - exists (line :: lines). cbn [bullets]. rewrite Hl. cbn [bind]. rewrite IH.
    cbn. by rewrite Hlen.
Qed.

(** Property X4 ([arxiv_search] with the two formatters).  Whatever
    [arxiv_search] returns is a valid input of both formatters: every record
    is a well-formed Source Record with a string [raw_content], so
    [deduplicate_and_format_sources] returns a text headed [Sources:] for
    any budget, with or without the raw content, and prints no warning, and
    [format_sources] returns too. *)
Theorem arxiv_search_formats (page : Type) (PdfReader : pystr -> res (list page))
    (extract_text : page -> res pystr)
    (client_results : pystr -> Z -> list Arxiv.paper * res unit)
    (download_pdf : Arxiv.paper -> res pystr) query max_results search_response :
  Arxiv.arxiv_search page PdfReader extract_text client_results download_pdf
    query max_results = Ok search_response ->
  valid_input search_response = true
  /\ (forall t b, exists rest,
        deduplicate_and_format_sources search_response t b =
          ([], Ok (lit "Sources:" ++ rest)))
  /\ exists s, format_sources search_response = Ok s.
Proof.
  unfold Arxiv.arxiv_search.
  destruct (client_results query max_results) as [papers stop].
  destruct (Arxiv.results_loop _ _ _ _ _ _ _) as [results| |] eqn:E; [|done..].
  cbn [bind]. intros [= <-].
  apply results_loop_results in E; [|constructor].
  split_and!.
  - cbn. apply forallb_forall. intros source Hin%list_elem_of_In.
    by destruct (proj1 (Forall_forall _ _) E _ Hin) as (p & text & ->).
  - intros t b.
    rewrite deduplicate_and_format_sources_eq.
    change (VDict [(lit "results", VList results)]) with (collection results).
    rewrite unique_sources_of_records.
    destruct (dedup_loop_well_formed results []) as (u & Eu & _); [|done|].
    { apply Forall_forall. intros source Hin.
      by destruct (proj1 (Forall_forall _ _) E _ Hin) as (p & text & ->). }
    rewrite Eu. cbn [bind]. rewrite io_bind_lift_ok.
    destruct (format_loop_silent u.*2 t b (lit "Sources:" ++ nl ++ nl))
      as [rest Ef].
    { apply Forall_forall. intros source [[key source'] [-> Hin]]%list_elem_of_fmap.
      destruct (proj2 (proj2 (dedup_loop_grows _ _ _ Eu)) _ _ Hin)
        as [Hin'|(Hin' & _)]; [by apply elem_of_nil in Hin'|].
      destruct (proj1 (Forall_forall _ _) E _ Hin') as (p & text & ->).
      apply source_block_result. }
    rewrite Ef, io_bind_ok. unfold ret. cbn [fst snd app].
    rewrite <- !app_assoc.
    destruct (strip_header (nl ++ nl ++ rest)) as [r ->]. eauto.
  - unfold format_sources. cbn [subscript]. 
    replace (lookup_key (lit "results") [(lit "results", VList results)])
      with (Some (VList results)) by reflexivity.
    cbn [bind py_iter].
    destruct (bullets_all results) as (lines & -> & _); [|cbn; eauto].
    apply Forall_forall. intros source Hin.
    destruct (proj1 (Forall_forall _ _) E _ Hin) as (p & text & ->).
    apply bullet_result.
Qed.

Lemma arxiv_search_formats_witness :
  let p := {| Arxiv.title := lit "T"; Arxiv.pdf_url := lit "u";
              Arxiv.summary := lit "S"; Arxiv.authors := [lit "A"; lit "B"];
              Arxiv.published := lit "2024"; Arxiv.updated := lit "2025";
              Arxiv.categories := [lit "cs.LG"]; Arxiv.entry_id := lit "id" |} in
  let search_response :=
    collection [Arxiv.result p (lit "id" ++ nl ++ lit "Page Number: 1");
                Arxiv.result p (lit "id" ++ nl ++ lit "Page Number: 1")] in
  valid_input search_response = true
  /\ (forall t b, exists rest,
        deduplicate_and_format_sources search_response t b =
          ([], Ok (lit "Sources:" ++ rest)))
  /\ exists s, format_sources search_response = Ok s.
Proof.
  intros p search_response.
  apply (arxiv_search_formats pystr (fun filename => Ok [filename]) Ok
           (fun _ _ => ([p; p], Ok tt)) (fun p => Ok (Arxiv.entry_id p))
           (lit "q") 3 search_response).
  reflexivity.
Defined.

Lemma results_loop_app {page : Type} (PdfReader : pystr -> res (list page))
    (extract_text : page -> res pystr) (download_pdf : Arxiv.paper -> res pystr)
    pre papers texts stop results :
  Forall2 (fun p text =>
             exists filename,
               download_pdf p = Ok filename
               /\ read_pdf page PdfReader extract_text filename = Ok text)
    pre texts ->
  Arxiv.results_loop page PdfReader extract_text download_pdf (pre ++ papers) stop
    results
  = Arxiv.results_loop page PdfReader extract_text download_pdf papers stop
      (results ++ zip_with Arxiv.result pre texts).
Proof.
  intros H. revert results.
  induction H as [|p text pre texts (filename & Hd & Hr) _ IH]; intros results.
  - cbn. by rewrite app_nil_r.
  - cbn [app Arxiv.results_loop]. rewrite Hd. cbn [bind]. rewrite Hr. cbn [bind].
    rewrite IH. cbn [zip_with]. by rewrite <- app_assoc.
Qed.

(** Property X5 ([arxiv_search], failure).  [arxiv_search] returns no partial
    result: when the download or the reading of one paper's PDF fails, or
    the client fails after the papers it yielded, the call ends with that
    exception, and the records built for the papers before it are lost. *)
Theorem arxiv_search_fails (page : Type) (PdfReader : pystr -> res (list page))
    (extract_text : page -> res pystr)
    (client_results : pystr -> Z -> list Arxiv.paper * res unit)
    (download_pdf : Arxiv.paper -> res pystr) query max_results pre texts e :
  Forall2 (fun p text =>
             exists filename,
               download_pdf p = Ok filename
               /\ read_pdf page PdfReader extract_text filename = Ok text)
    pre texts ->
  (forall bad post stop,
     client_results query max_results = (pre ++ bad :: post, stop) ->
     download_pdf bad = Raise e
     \/ (exists filename,
           download_pdf bad = Ok filename
           /\ read_pdf page PdfReader extract_text filename = Raise e) ->
     Arxiv.arxiv_search page PdfReader extract_text client_results download_pdf
       query max_results = Raise e)
  /\ (client_results query max_results = (pre, Raise e) ->
      Arxiv.arxiv_search page PdfReader extract_text client_results download_pdf
        query max_results = Raise e).
Proof.
  intros Hpre. split.
  - intros bad post stop Hc Hbad. unfold Arxiv.arxiv_search. rewrite Hc.
    rewrite (results_loop_app _ _ _ _ _ _ _ _ Hpre). cbn [Arxiv.results_loop].
    destruct Hbad as [->|(filename & -> & Hr)]; [done|].
    cbn [bind]. by rewrite Hr.
  - intros Hc. unfold Arxiv.arxiv_search. rewrite Hc.
    rewrite <- (app_nil_r pre) at 1.
    by rewrite (results_loop_app _ _ _ _ _ _ _ _ Hpre).
Qed.

Lemma arxiv_search_fails_witness :
  let p := {| Arxiv.title := lit "T"; Arxiv.pdf_url := lit "u";
              Arxiv.summary := lit "S"; Arxiv.authors := [];
              Arxiv.published := lit "2024"; Arxiv.updated := lit "2025";
              Arxiv.categories := []; Arxiv.entry_id := lit "id" |} in
  let q := {| Arxiv.title := lit "T2"; Arxiv.pdf_url := lit "u2";
              Arxiv.summary := lit "S2"; Arxiv.authors := [];
              Arxiv.published := lit "2024"; Arxiv.updated := lit "2025";
              Arxiv.categories := []; Arxiv.entry_id := [] |} in
  let download_pdf := fun p =>
    match Arxiv.entry_id p with [] => Raise ValueError | id => Ok id end in
  Arxiv.arxiv_search pystr (fun filename => Ok [filename]) Ok
    (fun _ _ => ([p] ++ q :: [p], Ok tt)) download_pdf (lit "q") 3
  = Raise ValueError.
Proof.
  intros p q download_pdf.
  apply (proj1 (arxiv_search_fails pystr (fun filename => Ok [filename]) Ok
                  (fun _ _ => ([p] ++ q :: [p], Ok tt)) download_pdf (lit "q") 3
                  [p] [lit "id" ++ nl ++ lit "Page Number: 1"] ValueError
                  ltac:(constructor; [|constructor]; exists (lit "id");
                        split; reflexivity))
           q [p] (Ok tt)).
  - reflexivity.
  - left. reflexivity.
Defined.

(** ** More on [deduplicate_and_format_sources] *)

Lemma extend_loop_records responses recordss sources_list :
  Forall2 (fun response records => records_of response = Some records)
    responses recordss ->
  extend_loop responses sources_list = Ok (sources_list ++ concat recordss).
Proof.
  intros H. revert sources_list.
  induction H as [|response records responses recordss Hr _ IH];
    intros sources_list.
  - cbn. by rewrite app_nil_r.
  - cbn [extend_loop concat].
    destruct response as [| | |records'|d]; try done.
    + cbn in Hr. injection Hr as ->. cbn. rewrite IH. by rewrite app_assoc.
    + cbn in Hr. cbn [is_dict_with subscript].
      destruct (lookup_key (lit "results") d) as [[| | |records'|]|]; try done.
      injection Hr as ->. rewrite bool_decide_true by eauto. cbn.
      rewrite IH. by rewrite app_assoc.
Qed.

(** Property X6 (list form).  A list of responses, each a mapping with a
    list under [results] or a bare list of records, is handled as the single
    mapping whose [results] is the concatenation of their records, in order:
    the same text, the same warnings, the same exception.  So duplicates are
    dropped across responses, not only within one. *)
Theorem list_form_flattened responses recordss t b :
  Forall2 (fun response records => records_of response = Some records)
    responses recordss ->
  deduplicate_and_format_sources (VList responses) t b =
  deduplicate_and_format_sources (collection (concat recordss)) t b.
Proof.
  intros H. unfold deduplicate_and_format_sources.
  cbn [sources_list_of collection]. rewrite (extend_loop_records _ _ [] H).
  reflexivity.
Qed.

Lemma list_form_flattened_witness :
  let a := record (str "A") (str "u1") (str "c1") in
  let b := record (str "B") (str "u1") (str "c2") in
  deduplicate_and_format_sources (VList [collection [a]; VList [b]]) 10 true =
  deduplicate_and_format_sources (collection (concat [[a]; [b]])) 10 true.
Proof.
  intros a b.
  apply (list_form_flattened [collection [a]; VList [b]] [[a]; [b]] 10 true).
  repeat constructor.
Defined.

Lemma filter_all {A : Type} (P : A -> Prop) `{!forall x, Decision (P x)} (l : list A) :
  Forall P l -> filter P l = l.
Proof.
  induction 1 as [|x l Hx _ IH]; [done|].
  rewrite filter_cons_True by done. by rewrite IH.
Qed.

Lemma minus_later_duplicates_NoDup_id l :
  NoDup l.*1 -> minus_later_duplicates l = l.
Proof.
  induction l as [|kr l IH]; [done|].
  cbn [fmap list_fmap minus_later_duplicates]. intros [Hkr Hl]%NoDup_cons.
  rewrite (IH Hl). f_equal. apply filter_all, Forall_forall.
  intros x Hx Heq. apply Hkr. rewrite <- Heq.
  apply list_elem_of_fmap. by exists x.
Qed.

Lemma sublist_same_length {A : Type} (l1 l2 : list A) :
  l1 `sublist_of` l2 -> length l1 = length l2 -> l1 = l2.
Proof.
  induction 1 as [|x l1 l2 _ IH|x l1 l2 Hs _]; [done| |].
  - cbn. intros [= Hlen]. by rewrite IH.
  - cbn. intros Hlen. apply sublist_length in Hs. lia.
Qed.

(** Property X7 (nothing but duplicates is dropped).  Of the records of a
    mapping, each with a hashable [url], every record reaches the output,
    in the order given, exactly when the urls are pairwise distinct. *)
Theorem all_kept_iff_distinct (l : list (pykey * pyval)) :
  Forall (fun kr => key_of kr.2 = Ok kr.1) l ->
  NoDup l.*1 <-> unique_sources_of (collection l.*2) = Ok l.*2.
Proof.
  intros Hl. rewrite (unique_sources_of_collection l Hl). split.
  - intros H. by rewrite minus_later_duplicates_NoDup_id.
  - intros [= H].
    rewrite <- (sublist_same_length _ _ (minus_later_duplicates_sublist l)).
    + apply minus_later_duplicates_NoDup.
    + by rewrite <- (length_fmap snd), H, length_fmap.
Qed.

Lemma all_kept_iff_distinct_witness :
  let l := [(KStr (lit "u1"), record (str "A") (str "u1") (str "c1"));
            (KStr (lit "u2"), record (str "B") (str "u2") (str "c2"))] in
  NoDup l.*1 <-> unique_sources_of (collection l.*2) = Ok l.*2.
Proof.
  intros l. apply (all_kept_iff_distinct l).
  repeat constructor.
Defined.

Lemma dedup_loop_keyed sources unique_sources :
  Forall (fun source => exists key, key_of source = Ok key) sources ->
  exists unique_sources', dedup_loop sources unique_sources = Ok unique_sources'.
Proof.
  intros H. revert unique_sources.
  induction H as [|source sources [key Hk] _ IH]; intros unique_sources.
  - by eexists.
  - rewrite dedup_loop_cons, Hk. cbn [bind]. destruct (contains _ _); apply IH.
Qed.

(** Property X8 (a record without a usable [url]).  All records are keyed by
    [url] before any text is built or printed.  If one record gives no key
    (it is no mapping, it has no [url], or its [url] is a list or a
    mapping) and the records before it do, the call ends with that record's
    exception, [KeyError] for a missing [url], and prints nothing, whatever
    follows and whatever warnings the earlier records were due. *)
Theorem unkeyed_record_fails_first :
  (forall pre bad post e t b,
     Forall (fun source => exists key, key_of source = Ok key) pre ->
     key_of bad = Raise e ->
     deduplicate_and_format_sources (collection (pre ++ bad :: post)) t b =
       ([], Raise e))
  /\ (forall pre d post t b,
        Forall (fun source => exists key, key_of source = Ok key) pre ->
        lookup_key (lit "url") d = None ->
        deduplicate_and_format_sources (collection (pre ++ VDict d :: post)) t b =
          ([], Raise KeyError)).
Proof.
  assert (forall pre bad post e t b,
     Forall (fun source => exists key, key_of source = Ok key) pre ->
     key_of bad = Raise e ->
     deduplicate_and_format_sources (collection (pre ++ bad :: post)) t b =
       ([], Raise e)) as H.
  { intros pre bad post e t b Hpre Hbad.
    rewrite deduplicate_and_format_sources_eq, unique_sources_of_records.
    rewrite dedup_loop_app.
    destruct (dedup_loop_keyed pre [] Hpre) as [u ->]. cbn [bind].
    rewrite dedup_loop_cons, Hbad. reflexivity. }
  split; [exact H|].
  intros pre d post t b Hpre Hd. apply H; [done|].
  unfold key_of. cbn [subscript]. by rewrite Hd.
Qed.

Lemma unkeyed_record_fails_first_witness :
  deduplicate_and_format_sources
    (collection ([record_raw (str "A") (str "u1") (str "c1") VNone]
                 ++ VDict [(lit "title", str "B")]
                 :: [record (str "C") (str "u2") (str "c2")])) 10 true =
    ([], Raise KeyError).
Proof.
  apply (proj2 unkeyed_record_fails_first).
  - constructor; [by eexists|constructor].
  - reflexivity.
Defined.

Lemma lstrip_suffix s : exists pre, s = pre ++ lstrip s.
Proof.
  induction s as [|c s [pre IH]]; [by exists []|].
  cbn [lstrip]. destruct (is_whitespace c).
  - exists (c :: pre). cbn. by rewrite <- IH.
  - by exists [].
Qed.

Lemma lstrip_head s c r : lstrip s = c :: r -> is_whitespace c = false.
Proof.
  induction s as [|c' s IH]; [done|]. cbn [lstrip].
  destruct (is_whitespace c') eqn:E; [done|]. by intros [= <- _].
Qed.

Lemma rstrip_last s s' c : rstrip s = s' ++ [c] -> is_whitespace c = false.
Proof.
  unfold rstrip. intros H. apply (f_equal reverse) in H.
  rewrite reverse_involutive, reverse_app in H. by apply lstrip_head in H.
Qed.

Lemma strip_last s s' c : strip s = s' ++ [c] -> is_whitespace c = false.
Proof.
  unfold strip. intros H. destruct (lstrip_suffix (rstrip s)) as [pre Hpre].
  rewrite H, app_assoc in Hpre. by apply rstrip_last in Hpre.
Qed.

(** Property X9 (the returned text is stripped).  Whenever
    [deduplicate_and_format_sources] returns, on any input, the text opens
    with [Sources:] and its last character is no whitespace: line breaks and
    blanks that end the last source's content or raw content are lost with
    the separators. *)
Theorem output_stripped search_response t b out s :
  deduplicate_and_format_sources search_response t b = (out, Ok s) ->
  (exists rest, s = lit "Sources:" ++ rest)
  /\ forall s' c, s = s' ++ [c] -> is_whitespace c = false.
Proof.
  rewrite deduplicate_and_format_sources_eq.
  destruct (unique_sources_of search_response) as [sources| |]; [|done..].
  rewrite io_bind_lift_ok.
  destruct (format_loop sources t b (lit "Sources:" ++ nl ++ nl))
    as [out' [text| |]] eqn:E; [|done..].
  rewrite io_bind_ok. unfold ret. cbn [fst snd]. intros [= _ <-].
  destruct (format_loop_extends _ _ _ _ _ _ E) as [rest ->]. split.
  - rewrite <- !app_assoc. apply strip_header.
  - intros s' c. apply strip_last.
Qed.

Lemma output_stripped_witness :
  let s := lit "Sources:" ++ nl ++ nl ++ lit "Source A:" ++ nl
           ++ lit "===" ++ nl ++ lit "URL: u1" ++ nl ++ lit "===" ++ nl
           ++ lit "Most relevant content from source: c1" ++ nl
           ++ lit "===" in
  (exists rest, s = lit "Sources:" ++ rest)
  /\ forall s' c, s = s' ++ [c] -> is_whitespace c = false.
Proof.
  intros s.
  apply (output_stripped
           (collection [record (str "A") (str "u1") (str "c1")]) 10 false []).
  reflexivity.
Defined.

(** Property X10 (size of the raw content).  For a budget [t >= 0] and a
    [raw_content] of type [str], the text put after
    [Full source content limited to t tokens: ] is the raw content itself
    when it has at most [4 * t] characters, and otherwise its first [4 * t]
    characters followed by the 15 characters of [... [truncated]]: never
    more than [4 * t + 15] characters, and no warning is printed.  A raw
    content of [4 * t + 1] to [4 * t + 14] characters comes out longer than
    it went in. *)
Theorem raw_text_bounded d raw t :
  0 <= t ->
  lookup_key (lit "raw_content") d = Some (VStr raw) ->
  exists text,
    raw_content_block (VDict d) t =
      ([], Ok (lit "Full source content limited to " ++ str_of_int t
               ++ lit " tokens: " ++ text ++ nl ++ nl))
    /\ Z.of_nat (length text) <= 4 * t + 15
    /\ (Z.of_nat (length raw) <= 4 * t -> text = raw)
    /\ (4 * t < Z.of_nat (length raw) ->
        text = take (Z.to_nat (4 * t)) raw ++ lit "... [truncated]"
        /\ Z.of_nat (length text) = 4 * t + 15).
Proof.
  intros Ht Hraw. exists (clipped t raw).
  rewrite (raw_content_block_str d raw t Hraw). split; [reflexivity|].
  unfold clipped, slice_to. replace (t * 4) with (4 * t) by lia.
  destruct (4 * t <? Z.of_nat (length raw)) eqn:E.
  - apply Z.ltb_lt in E. rewrite (proj2 (Z.leb_le 0 (4 * t))) by lia.
    assert (Z.of_nat (length (take (Z.to_nat (4 * t)) raw
                              ++ lit "... [truncated]")) = 4 * t + 15) as Hlen.
    { rewrite length_app, length_take.
      change (length (lit "... [truncated]")) with 15%nat. lia. }
    split_and!; [lia|lia|done].
  - apply Z.ltb_ge in E. split_and!; [lia|done|lia].
Qed.

Lemma raw_text_bounded_witness :
  exists text,
    raw_content_block
      (VDict [(lit "url", str "u1"); (lit "raw_content", str "abcdefghi")]) 2 =
      ([], Ok (lit "Full source content limited to " ++ str_of_int 2
               ++ lit " tokens: " ++ text ++ nl ++ nl))
    /\ Z.of_nat (length text) <= 4 * 2 + 15
    /\ (Z.of_nat (length (lit "abcdefghi")) <= 4 * 2 -> text = lit "abcdefghi")
    /\ (4 * 2 < Z.of_nat (length (lit "abcdefghi")) ->
        text = take (Z.to_nat (4 * 2)) (lit "abcdefghi") ++ lit "... [truncated]"
        /\ Z.of_nat (length text) = 4 * 2 + 15).
Proof.
  apply (raw_text_bounded
           [(lit "url", str "u1"); (lit "raw_content", str "abcdefghi")]
           (lit "abcdefghi") 2).
  - lia.
  - reflexivity.
Defined.

(** Property X11 (a negative budget).  A negative [max_tokens_per_source]
    is not rejected.  Every raw content of type [str], the empty one too,
    is then longer than the limit [4 * t]: it loses its last [- 4 * t]
    characters (all of them if it has fewer) and gets the marker
    [... [truncated]]. *)
Theorem negative_budget d raw t :
  t < 0 ->
  lookup_key (lit "raw_content") d = Some (VStr raw) ->
  raw_content_block (VDict d) t =
    ([], Ok (lit "Full source content limited to " ++ str_of_int t
             ++ lit " tokens: "
             ++ (take (length raw - Z.to_nat (- (4 * t))) raw
                 ++ lit "... [truncated]") ++ nl ++ nl)).
Proof.
  intros Ht Hraw. rewrite (raw_content_block_str d raw t Hraw).
  unfold raw_block, clipped, slice_to.
  rewrite (proj2 (Z.ltb_lt (t * 4) (Z.of_nat (length raw)))) by lia.
  rewrite (proj2 (Z.leb_gt 0 (t * 4))) by lia.
  replace (Z.to_nat (Z.of_nat (length raw) + t * 4))
    with (length raw - Z.to_nat (- (4 * t)))%nat by lia.
  reflexivity.
Qed.

Lemma negative_budget_witness :
  raw_content_block
    (VDict [(lit "url", str "u1"); (lit "raw_content", str "abcdefghi")]) (-1) =
    ([], Ok (lit "Full source content limited to -1 tokens: "
             ++ lit "abcde... [truncated]" ++ nl ++ nl)).
Proof.
  apply (negative_budget
           [(lit "url", str "u1"); (lit "raw_content", str "abcdefghi")]
           (lit "abcdefghi") (-1)).
  - lia.
  - reflexivity.
Defined.

(** ** More on [format_sources] *)

Lemma bullets_app sources sources' :
  bullets (sources ++ sources') =
    (lines <- bullets sources ;; lines' <- bullets sources' ;; Ok (lines ++ lines')).
Proof.
  induction sources as [|source sources IH].
  - cbn. by destruct (bullets sources').
  - cbn [app bullets]. destruct (bullet source); [|done..]. cbn [bind].
    rewrite IH. destruct (bullets sources); [|done..]. cbn [bind].
    by destruct (bullets sources').
Qed.

Lemma bullets_length sources lines :
  bullets sources = Ok lines -> length lines = length sources.
Proof.
  revert lines. induction sources as [|source sources IH]; intros lines.
  - by intros [= <-].
  - cbn [bullets]. destruct (bullet source); [|done..]. cbn [bind].
    destruct (bullets sources) as [lines'| |]; [|done..]. cbn [bind].
    intros [= <-]. cbn. by rewrite (IH lines').
Qed.

Lemma join_app sep lines lines' :
  lines <> [] -> lines' <> [] ->
  join sep (lines ++ lines') = join sep lines ++ sep ++ join sep lines'.
Proof.
  intros Hl Hl'. induction lines as [|line lines IH]; [done|].
  destruct lines as [|line' lines].
  - cbn [app]. destruct lines' as [|line' lines']; [done|]. reflexivity.
  - change (join sep ((line :: line' :: lines) ++ lines'))
      with (line ++ sep ++ join sep ((line' :: lines) ++ lines')).
    rewrite IH by done.
    change (join sep (line :: line' :: lines))
      with (line ++ sep ++ join sep (line' :: lines)).
    by rewrite <- !app_assoc.
Qed.

(** Property X12 ([format_sources], failures).  [format_sources] raises
    [TypeError] when its argument is no mapping, [KeyError] when the mapping
    has no [results], and otherwise the exception of the first record whose
    line cannot be built (a record without [title] or [url] gives
    [KeyError]); the lines of the records before it are not returned.  It
    never raises the [ValueError] of [deduplicate_and_format_sources]. *)
Theorem format_sources_failures :
  (forall search_results,
     (forall d, search_results <> VDict d) ->
     format_sources search_results = Raise TypeError)
  /\ (forall d,
        lookup_key (lit "results") d = None ->
        format_sources (VDict d) = Raise KeyError)
  /\ (forall d pre bad post e,
        lookup_key (lit "results") d = Some (VList (pre ++ bad :: post)) ->
        Forall (fun source => exists line, bullet source = Ok line) pre ->
        bullet bad = Raise e ->
        format_sources (VDict d) = Raise e)
  /\ (forall d,
        lookup_key (lit "title") d = None
        \/ (is_str (lookup_key (lit "title") d) = true
            /\ lookup_key (lit "url") d = None) ->
        bullet (VDict d) = Raise KeyError)
  /\ forall search_results, quiet (format_sources search_results).
Proof.
  split_and!.
  - intros v Hv. destruct v; try done. by destruct (Hv d).
  - intros d Hd. unfold format_sources. cbn [subscript]. by rewrite Hd.
  - intros d pre bad post e Hd Hpre Hbad. unfold format_sources.
    cbn [subscript]. rewrite Hd. cbn [bind py_iter]. rewrite bullets_app.
    destruct (bullets_all pre Hpre) as (lines & -> & _). cbn [bind bullets].
    by rewrite Hbad.
  - intros d [Ht|[Ht Hu]]; unfold bullet, field_str; cbn [subscript].
    + by rewrite Ht.
    + destruct (lookup_key (lit "title") d) as [[| |title| |]|]; try done.
      cbn [bind py_str]. by rewrite Hu.
  - intros v. unfold format_sources.
    repeat (apply bind_quiet; [auto using subscript_quiet, py_iter_quiet|intros]);
      try done.
    clear. induction a0 as [|source sources IH]; [done|]. cbn [bullets].
    apply bind_quiet.
    + unfold bullet.
      repeat (apply bind_quiet; [apply field_str_quiet|intros]). done.
    + intros line. by apply bind_quiet.
Qed.

Lemma format_sources_failures_witness :
  format_sources (VList []) = Raise TypeError
  /\ format_sources (VDict [(lit "items", VList [])]) = Raise KeyError
  /\ format_sources
       (collection ([record (str "A") (str "u1") (str "c1")]
                    ++ VDict [(lit "title", str "B")]
                    :: [record (str "C") (str "u2") (str "c2")]))
     = Raise KeyError.
Proof.
  split_and!.
  - by apply (proj1 format_sources_failures).
  - by apply (proj1 (proj2 format_sources_failures)).
  - apply (proj1 (proj2 (proj2 format_sources_failures))
             [(lit "results",
               VList ([record (str "A") (str "u1") (str "c1")]
                      ++ VDict [(lit "title", str "B")]
                      :: [record (str "C") (str "u2") (str "c2")]))]
             [record (str "A") (str "u1") (str "c1")]
             (VDict [(lit "title", str "B")])
             [record (str "C") (str "u2") (str "c2")]).
    + reflexivity.
    + constructor; [by eexists|constructor].
    + apply (proj1 (proj2 (proj2 (proj2 format_sources_failures)))).
      by right.
Defined.

(** Property X13 ([format_sources], concatenation).  The list for two
    non-empty runs of records put one after the other is the list of the
    first, a line break, and the list of the second: one line per record,
    no line break at either end, and nothing merged or dropped. *)
Theorem format_sources_app sources sources' s s' :
  sources <> [] -> sources' <> [] ->
  format_sources (collection sources) = Ok s ->
  format_sources (collection sources') = Ok s' ->
  format_sources (collection (sources ++ sources')) = Ok (s ++ nl ++ s').
Proof.
  intros Hs Hs'. unfold format_sources, collection. cbn [subscript].
  replace (lookup_key (lit "results") [(lit "results", VList sources)])
    with (Some (VList sources)) by reflexivity.
  replace (lookup_key (lit "results") [(lit "results", VList sources')])
    with (Some (VList sources')) by reflexivity.
  replace (lookup_key (lit "results") [(lit "results", VList (sources ++ sources'))])
    with (Some (VList (sources ++ sources'))) by reflexivity.
  cbn [bind py_iter]. rewrite bullets_app.
  destruct (bullets sources) as [lines| |] eqn:E; [|done..].
  destruct (bullets sources') as [lines'| |] eqn:E'; [|done..].
  cbn [bind]. intros [= <-] [= <-]. rewrite join_app; [done| |].
  - apply bullets_length in E. by destruct lines, sources.
  - apply bullets_length in E'. by destruct lines', sources'.
Qed.

Lemma format_sources_app_witness :
  format_sources
    (collection ([record (str "A") (str "u1") (str "c1")]
                 ++ [record (str "A") (str "u1") (str "c1")]))
  = Ok (lit "* A : u1" ++ nl ++ lit "* A : u1").
Proof.
  apply (format_sources_app [record (str "A") (str "u1") (str "c1")]
           [record (str "A") (str "u1") (str "c1")]); [done|done|reflexivity..].
Defined.

(** ** Inputs the list form does not take *)

Lemma extend_loop_app responses responses' sources_list :
  extend_loop (responses ++ responses') sources_list =
    (sources_list' <- extend_loop responses sources_list ;;
     extend_loop responses' sources_list').
Proof.
  revert sources_list.
  induction responses as [|response responses IH]; intros sources_list; [done|].
  cbn [app extend_loop]. destruct (is_dict_with _ _).
  - destruct (subscript _ _) as [results| |]; [|done..]. cbn [bind].
    destruct (py_iter results); [|done..]. cbn [bind]. apply IH.
  - destruct (py_iter response); [|done..]. cbn [bind]. apply IH.
Qed.

Lemma extend_loop_cases responses sources_list :
  (exists more, extend_loop responses sources_list = Ok (sources_list ++ more))
  \/ extend_loop responses sources_list = Raise TypeError.
Proof.
  revert sources_list.
  induction responses as [|response responses IH]; intros sources_list.
  - left. exists []. cbn. by rewrite app_nil_r.
  - cbn [extend_loop].
    assert (forall v, (exists items, py_iter v = Ok items)
                      \/ py_iter v = Raise TypeError) as Hiter.
    { intros []; cbn; eauto. }
    assert (forall items,
              (exists more, extend_loop responses (sources_list ++ items)
                            = Ok (sources_list ++ more))
              \/ extend_loop responses (sources_list ++ items) = Raise TypeError)
      as Hnext.
    { intros items. destruct (IH (sources_list ++ items)) as [[more ->]| ->];
        [left|by right].
      exists (items ++ more). by rewrite app_assoc. }
    destruct (is_dict_with _ _) eqn:E.
    + destruct response as [| | | |d]; try done. cbn [subscript].
      cbn in E. apply bool_decide_eq_true in E. destruct E as [results ->].
      cbn [bind]. destruct (Hiter results) as [[items ->]| ->]; [|by right].
      cbn [bind]. apply Hnext.
    + destruct (Hiter response) as [[items ->]| ->]; [|by right].
      cbn [bind]. apply Hnext.
Qed.

(** Property X14 (records given without their mapping).  In the list form
    every element must be a collection or a list of records.  A record put
    in the list directly (a non-empty mapping without [results]) is read as
    a list of records, so its keys are taken for records: when the
    responses before it are sound the call raises [TypeError] and prints
    nothing, whatever follows.  An empty mapping in the list adds nothing
    and is passed over. *)
Theorem record_in_list_form_rejected :
  (forall pre recordss d post t b,
     Forall2 (fun response records => records_of response = Some records)
       pre recordss ->
     Forall (fun source => exists key, key_of source = Ok key) (concat recordss) ->
     d <> [] ->
     lookup_key (lit "results") d = None ->
     deduplicate_and_format_sources (VList (pre ++ VDict d :: post)) t b =
       ([], Raise TypeError))
  /\ (forall pre post t b,
        deduplicate_and_format_sources (VList (pre ++ VDict [] :: post)) t b =
        deduplicate_and_format_sources (VList (pre ++ post)) t b).
Proof.
  split.
  - intros pre recordss d post t b Hpre Hkeyed Hd Hres.
    unfold deduplicate_and_format_sources. cbn [sources_list_of].
    rewrite extend_loop_app, (extend_loop_records _ _ [] Hpre). cbn [bind app].
    cbn [extend_loop is_dict_with]. rewrite Hres.
    rewrite bool_decide_false by (by intros [? ?]). cbn [py_iter bind].
    destruct (extend_loop_cases post
                (concat recordss ++ ((fun kv => VStr kv.1) <$> d)))
      as [[more ->]| ->]; [|done].
    cbn [bind]. rewrite io_bind_lift_ok. cbn [py_iter bind].
    rewrite <- app_assoc, dedup_loop_app.
    destruct (dedup_loop_keyed _ [] Hkeyed) as [u ->]. cbn [bind].
    destruct d as [|[k v] d]; [done|]. reflexivity.
  - intros pre post t b. unfold deduplicate_and_format_sources.
    cbn [sources_list_of]. rewrite !extend_loop_app.
    destruct (extend_loop pre []) as [sources_list| |]; [|done..].
    cbn [bind extend_loop is_dict_with lookup_key].
    rewrite bool_decide_false by (by intros [? ?]). cbn [py_iter bind fmap list_fmap].
    by rewrite app_nil_r.
Qed.

Lemma record_in_list_form_rejected_witness :
  deduplicate_and_format_sources
    (VList ([collection [record (str "A") (str "u1") (str "c1")]]
            ++ VDict [(lit "title", str "B"); (lit "url", str "u2");
                      (lit "content", str "c2")]
            :: [VNone])) 10 true =
    ([], Raise TypeError).
Proof.
  apply (proj1 record_in_list_form_rejected
           [collection [record (str "A") (str "u1") (str "c1")]]
           [[record (str "A") (str "u1") (str "c1")]]).
  - repeat constructor.
  - constructor; [by eexists|constructor].
  - done.
  - reflexivity.
Defined.

(** ** What is printed before a failure *)

Lemma format_loop_app sources sources' t b text :
  format_loop (sources ++ sources') t b text =
    (text' <~ format_loop sources t b text ;; format_loop sources' t b text').
Proof.
  revert text. induction sources as [|source sources IH]; intros text.
  - cbn [app format_loop]. by rewrite io_bind_ret.
  - cbn [app format_loop].
    destruct (source_block source t b) as [out [block| |]]; [|done..].
    rewrite !io_bind_ok, IH.
    destruct (format_loop sources t b (text ++ block)) as [out' [text'| |]];
      [|done..].
    cbn [fst snd]. rewrite !io_bind_ok. cbn [fst snd]. by rewrite app_assoc.
Qed.

(** Property X15 (warnings before a failure).  With the raw content asked
    for, the warnings come out source by source as the text is built.  If
    the block of one of the sources left after deduplication cannot be built
    (it lacks [title] or [content], say) and the sources before it are
    well-formed, the call ends with that exception after it has printed the
    warnings of those earlier sources and what the failing block printed:
    no text is returned, the lines stay printed. *)
Theorem warnings_before_failure (l good rest : list (pykey * pyval)) bad out e t :
  Forall (fun kr => key_of kr.2 = Ok kr.1) l ->
  minus_later_duplicates l = good ++ bad :: rest ->
  Forall (fun source => well_formed source = true) good.*2 ->
  source_block bad.2 t true = (out, Raise e) ->
  deduplicate_and_format_sources (collection l.*2) t true =
    (concat (warning_of <$> good.*2) ++ out, Raise e).
Proof.
  intros Hl Hm Hgood Hbad.
  rewrite deduplicate_and_format_sources_eq, (unique_sources_of_collection l Hl).
  rewrite io_bind_lift_ok, Hm, fmap_app, fmap_cons, format_loop_app.
  destruct (format_loop_warnings good.*2 t (lit "Sources:" ++ nl ++ nl) Hgood)
    as [s ->].
  rewrite io_bind_ok. cbn [format_loop]. rewrite Hbad. reflexivity.
Qed.

Lemma warnings_before_failure_witness :
  let a := record_raw (str "A") (str "u1") (str "c1") VNone in
  let b := VDict [(lit "url", str "u2")] in
  deduplicate_and_format_sources (collection [a; a; b]) 10 true =
    ([lit "Warning: No raw_content found for source u1"], Raise KeyError).
Proof.
  intros a b.
  apply (warnings_before_failure
           [(KStr (lit "u1"), a); (KStr (lit "u1"), a); (KStr (lit "u2"), b)]
           [(KStr (lit "u1"), a)] [] (KStr (lit "u2"), b) [] KeyError 10).
  - repeat constructor.
  - reflexivity.
  - repeat constructor.
  - reflexivity.
Defined.

(** ** The two embeddings *)

Lemma store_refines_witness :
  (Store.deduplicate_and_format_sources (Store.VRef 3%nat) 10 true
     example_store).2 =
  deduplicate_and_format_sources
    (collection [record (str "A") (str "u1") (str "c1");
                 record (str "B") (str "u1") (str "c2")]) 10 true.
Proof.
  apply (store_refines example_store).
  apply represents_dict. eexists 3%nat, _. split_and!; [reflexivity..|].
  constructor; [|constructor]. split; [reflexivity|].
  apply represents_list. eexists 2%nat, _. split_and!; [reflexivity..|].
  constructor; [|constructor; [|constructor]].
  - apply represents_dict. eexists 0%nat, _. split_and!; [reflexivity..|].
    repeat constructor.
  - apply represents_dict. eexists 1%nat, _. split_and!; [reflexivity..|].
    repeat constructor.
Defined.

(** ** Later duplicates and the raw content, on every form of input *)

Lemma records_in_sources search_response records :
  records_in search_response = Some records ->
  sources_list_of search_response = Ok (VList records).
Proof.
  destruct search_response as [| | |responses|d]; try done.
  - cbn [records_in sources_list_of].
    destruct (mapM records_of responses) as [recordss|] eqn:E; [|done].
    intros [= <-]. apply mapM_Some in E.
    by rewrite (extend_loop_records _ _ [] E).
  - cbn [records_in records_of sources_list_of subscript].
    destruct (lookup_key (lit "results") d) as [[| | |records'|]|]; try done.
    by intros [= <-].
Qed.

Lemma deduplicate_records_in search_response records t b :
  records_in search_response = Some records ->
  deduplicate_and_format_sources search_response t b =
  deduplicate_and_format_sources (collection records) t b.
Proof.
  intros H. unfold deduplicate_and_format_sources.
  by rewrite (records_in_sources _ _ H).
Qed.

Lemma unique_sources_of_records_in search_response records :
  records_in search_response = Some records ->
  unique_sources_of search_response =
    (unique_sources <- dedup_loop records [] ;; Ok unique_sources.*2).
Proof.
  intros H. unfold unique_sources_of. by rewrite (records_in_sources _ _ H).
Qed.

(** C1: in every input, of either form, a record whose url an earlier
    record has is dropped entirely.  Two inputs whose records differ by such
    a record alone give the same result, text and printed lines.  Of the
    sources that are formatted exactly one has that url, the first record
    with it, and the later record, if it differs, is not among them; the
    output is the header and one block per formatted source.  On the
    specification's example, in both forms, the output is the one block
    of "A". *)
Theorem later_duplicate_dropped :
  (forall search_response search_response' pre r1 mid r2 post key t b,
     records_in search_response = Some (pre ++ r1 :: mid ++ r2 :: post) ->
     records_in search_response' = Some (pre ++ r1 :: mid ++ post) ->
     key_of r1 = Ok key -> key_of r2 = Ok key ->
     deduplicate_and_format_sources search_response t b =
     deduplicate_and_format_sources search_response' t b)
  /\ (forall search_response pre r1 mid r2 post key unique_sources t b,
        records_in search_response = Some (pre ++ r1 :: mid ++ r2 :: post) ->
        key_of r1 = Ok key -> key_of r2 = Ok key ->
        Forall (fun source => key_of source <> Ok key) pre ->
        unique_sources_of search_response = Ok unique_sources ->
        (exists before after,
           unique_sources = before ++ r1 :: after
           /\ Forall (fun source => key_of source <> Ok key) (before ++ after))
        /\ (r2 <> r1 -> r2 ∉ unique_sources)
        /\ forall blocks,
             Forall2 (fun source ob => source_block source t b = (ob.1, Ok ob.2))
               unique_sources blocks ->
             deduplicate_and_format_sources search_response t b =
               (concat blocks.*1,
                Ok (strip (lit "Sources:" ++ nl ++ nl ++ concat blocks.*2))))
  /\ (forall t,
        deduplicate_and_format_sources
          (collection [record (str "A") (str "u1") (str "c1");
                       record (str "B") (str "u1") (str "c2")]) t false =
          ([], Ok (lit "Sources:" ++ nl ++ nl ++ lit "Source A:" ++ nl
                   ++ lit "===" ++ nl ++ lit "URL: u1" ++ nl ++ lit "===" ++ nl
                   ++ lit "Most relevant content from source: c1" ++ nl
                   ++ lit "===")))
  /\ (forall t,
        deduplicate_and_format_sources
          (VList [collection [record (str "A") (str "u1") (str "c1")];
                  collection [record (str "B") (str "u1") (str "c2")]]) t false =
          ([], Ok (lit "Sources:" ++ nl ++ nl ++ lit "Source A:" ++ nl
                   ++ lit "===" ++ nl ++ lit "URL: u1" ++ nl ++ lit "===" ++ nl
                   ++ lit "Most relevant content from source: c1" ++ nl
                   ++ lit "==="))).
Proof.
  split_and!.
  - intros sr sr' pre r1 mid r2 post key t b Hsr Hsr' H1 H2.
    rewrite (deduplicate_records_in _ _ t b Hsr),
      (deduplicate_records_in _ _ t b Hsr').
    rewrite !deduplicate_and_format_sources_eq. do 2 f_equal.
    rewrite !unique_sources_of_records, !dedup_loop_app.
    destruct (dedup_loop pre []) as [u| |]; try done. cbn [bind].
    by rewrite (dedup_loop_later_duplicate r1 mid r2 post key).
  - intros sr pre r1 mid r2 post key us t b Hsr H1 H2 Hpre Hus.
    assert (exists before after,
              us = before ++ r1 :: after
              /\ Forall (fun source => key_of source <> Ok key) (before ++ after))
      as Hsplit.
    { rewrite (unique_sources_of_records_in _ _ Hsr) in Hus.
      destruct (dedup_loop (pre ++ r1 :: mid ++ r2 :: post) []) as [u| |] eqn:E;
        try done.
      cbn [bind] in Hus. injection Hus as <-.
      destruct (dedup_loop_first_wins pre r1 _ key u H1 Hpre E) as [Hnd Hiff].
      pose proof (proj2 (proj2 (dedup_loop_grows _ _ _ E))) as Hkeys.
      destruct (list_elem_of_split u (key, r1)) as (u1 & u2 & ->);
        [by apply Hiff|].
      exists u1.*2, u2.*2. split; [by rewrite fmap_app, fmap_cons|].
      rewrite fmap_app, fmap_cons in Hnd. cbn [fst] in Hnd.
      apply NoDup_app in Hnd as (_ & Hu1 & [Hu2 _]%NoDup_cons).
      apply Forall_forall. intros s Hs Hk.
      apply elem_of_app in Hs as [Hs|Hs];
        apply list_elem_of_fmap in Hs as [[k s'] [-> Hin]]; cbn [snd] in Hk.
      - destruct (Hkeys k s') as [Hnil|(_ & Hk' & _)].
        { apply elem_of_app. by left. }
        { by apply elem_of_nil in Hnil. }
        rewrite Hk in Hk'. injection Hk' as <-.
        apply (Hu1 key); [|apply list_elem_of_here].
        by apply (list_elem_of_fmap_2 fst) in Hin.
      - destruct (Hkeys k s') as [Hnil|(_ & Hk' & _)].
        { apply elem_of_app. right. by apply list_elem_of_further. }
        { by apply elem_of_nil in Hnil. }
        rewrite Hk in Hk'. injection Hk' as <-.
        apply Hu2. by apply (list_elem_of_fmap_2 fst) in Hin. }
    split_and!; [done| |].
    + destruct Hsplit as (before & after & -> & Hrest). intros Hne Hin.
      rewrite Forall_app, !Forall_forall in Hrest. destruct Hrest as [Hb Ha].
      apply elem_of_app in Hin as [Hin|[Hin|Hin]%elem_of_cons]; [|done|].
      * by apply (Hb r2).
      * by apply (Ha r2).
    + intros blocks Hblocks.
      rewrite deduplicate_and_format_sources_eq, Hus, io_bind_lift_ok.
      rewrite (format_loop_blocks _ blocks) by done.
      rewrite io_bind_ok. unfold ret. cbn [fst snd].
      by rewrite app_nil_r, <- !app_assoc.
  - intros t. reflexivity.
  - intros t. reflexivity.
Qed.

Lemma later_duplicate_dropped_witness :
  let a := record (str "A") (str "u1") (str "c1") in
  let b := record (str "B") (str "u1") (str "c2") in
  let c := record (str "C") (str "u2") (str "c3") in
  let search_response := VList [collection ([c] ++ [a]); VList ([c] ++ b :: [c])] in
  deduplicate_and_format_sources search_response 10 true =
  deduplicate_and_format_sources (collection ([c] ++ a :: [c] ++ [c])) 10 true
  /\ (exists before after,
        [c; a] = before ++ a :: after
        /\ Forall (fun source => key_of source <> Ok (KStr (lit "u1")))
             (before ++ after))
  /\ (b <> a -> b ∉ [c; a])
  /\ forall blocks,
       Forall2 (fun source ob => source_block source 10 true = (ob.1, Ok ob.2))
         [c; a] blocks ->
       deduplicate_and_format_sources search_response 10 true =
         (concat blocks.*1,
          Ok (strip (lit "Sources:" ++ nl ++ nl ++ concat blocks.*2))).
Proof.
  intros a b c search_response. split.
  - apply (proj1 later_duplicate_dropped search_response
             (collection ([c] ++ a :: [c] ++ [c])) [c] a [c] b [c]
             (KStr (lit "u1")) 10 true); reflexivity.
  - apply (proj1 (proj2 later_duplicate_dropped) search_response
             [c] a [c] b [c] (KStr (lit "u1")) [c; a] 10 true).
    + reflexivity.
    + reflexivity.
    + reflexivity.
    + repeat constructor. discriminate.
    + reflexivity.
Defined.

Lemma limited_to_40_cases raw :
  ((length raw <= 40)%nat -> limited_to_40 raw = raw)
  /\ ((40 < length raw)%nat ->
      limited_to_40 raw = take 40 raw ++ lit "... [truncated]"
      /\ length (take 40 raw) = 40%nat).
Proof.
  unfold limited_to_40. split; intros H.
  - by rewrite (proj2 (Nat.leb_le _ _) H).
  - rewrite (proj2 (Nat.leb_gt _ _) H). split; [done|]. rewrite length_take. lia.
Qed.

Lemma clipped_10 raw : clipped 10 raw = limited_to_40 raw.
Proof.
  unfold clipped, limited_to_40, slice_to. change (10 * 4) with 40.
  change (0 <=? 40) with true. change (Z.to_nat 40) with 40%nat.
  destruct (Z.ltb_spec 40 (Z.of_nat (length raw))),
    (Nat.leb_spec (length raw) 40); try done; lia.
Qed.

Lemma raw_block_10 text :
  raw_block 10 text =
    lit "Full source content limited to 10 tokens: " ++ text ++ nl ++ nl.
Proof. reflexivity. Qed.

Lemma source_block_10 source :
  well_formed source = true ->
  source_block source 10 true = (warning_of source, Ok (block_10 source)).
Proof.
  intros (d & title & url & content & -> & Ht & Hu & Hc & Hraw)%well_formed_fields.
  rewrite (source_block_raw d title url content) by done.
  unfold block_10, warning_of, raw_text_of. rewrite Ht, Hu, Hc.
  destruct Hraw as [Hr|[Hr|[raw Hr]]]; rewrite Hr.
  - rewrite raw_content_block_absent by done. cbn [fst snd bind].
    by rewrite clipped_10, raw_block_10.
  - rewrite (raw_content_block_null d url).
    + cbn [fst snd bind]. by rewrite clipped_10, raw_block_10.
    + done.
    + unfold field_str. cbn [subscript]. by rewrite Hu.
  - rewrite (raw_content_block_str d raw) by done. cbn [fst snd bind].
    by rewrite clipped_10, raw_block_10.
Qed.

(** C2, amended: with [max_tokens_per_source = 10] and
    [include_raw_content] the limit is 40 characters, for every source of
    every input.  On any input, of either form, whose sources after
    deduplication are well-formed, the output is the header and, source by
    source, the block whose raw content is [limited_to_40]: a raw content
    of at most 40 characters (exactly 40 included) is emitted untouched, a
    longer one (41 included) is cut to its first 40 characters with the
    marker ["... [truncated]"] appended; so is the raw content block of
    any record whose [raw_content] is a string.  Only the final [strip] of the
    whole text can still touch the raw content of the last source, and it
    spares it when it does not end in whitespace: for a single source the
    output is given in full. *)
Theorem truncation_boundary :
  (forall raw,
     ((length raw <= 40)%nat -> limited_to_40 raw = raw)
     /\ ((40 < length raw)%nat ->
         limited_to_40 raw = take 40 raw ++ lit "... [truncated]"
         /\ length (take 40 raw) = 40%nat))
  /\ (forall d raw,
        lookup_key (lit "raw_content") d = Some (VStr raw) ->
        raw_content_block (VDict d) 10 =
          ([], Ok (lit "Full source content limited to 10 tokens: "
                   ++ limited_to_40 raw ++ nl ++ nl)))
  /\ (forall search_response (l : list (pykey * pyval)),
        records_in search_response = Some l.*2 ->
        Forall (fun kr => key_of kr.2 = Ok kr.1) l ->
        Forall (fun source => well_formed source = true)
          (minus_later_duplicates l).*2 ->
        deduplicate_and_format_sources search_response 10 true =
          (concat (warning_of <$> (minus_later_duplicates l).*2),
           Ok (strip (lit "Sources:" ++ nl ++ nl
                      ++ concat (block_10 <$> (minus_later_duplicates l).*2)))))
  /\ (forall title url content raw,
        let output :=
          deduplicate_and_format_sources
            (collection
               [record_raw (VStr title) (VStr url) (VStr content) (VStr raw)])
            10 true in
        ((length raw <= 40)%nat ->
         output =
           ([], Ok (strip (single_head title url content ++ raw ++ nl ++ nl)))
         /\ forall raw' c,
              raw = raw' ++ [c] -> is_whitespace c = false ->
              output = ([], Ok (single_head title url content ++ raw)))
        /\ ((40 < length raw)%nat ->
            output = ([], Ok (single_head title url content ++ take 40 raw
                              ++ lit "... [truncated]"))
            /\ length (take 40 raw) = 40%nat)).
Proof.
  split_and!.
  - apply limited_to_40_cases.
  - intros d raw Hraw. rewrite (raw_content_block_str d raw 10 Hraw).
    by rewrite clipped_10, raw_block_10.
  - intros sr l Hsr Hl Hwf.
    rewrite (deduplicate_records_in _ _ 10 true Hsr).
    rewrite deduplicate_and_format_sources_eq, (unique_sources_of_collection l Hl).
    rewrite io_bind_lift_ok.
    rewrite (format_loop_blocks _
               ((fun source => (warning_of source, block_10 source))
                  <$> (minus_later_duplicates l).*2)).
    + rewrite io_bind_ok. unfold ret. cbn [fst snd].
      rewrite <- !list_fmap_compose, app_nil_r, <- !app_assoc. reflexivity.
    + apply Forall2_fmap_r, Forall_Forall2_diag.
      eapply Forall_impl; [exact Hwf|]. intros source Hs. cbn [fst snd].
      by apply source_block_10.
  - apply single_source_boundary.
Qed.

Lemma truncation_boundary_witness :
  let raw := lit "0123456789012345678901234567890123456789" in
  let r41 := record_raw (str "A") (str "u1") (str "c1") (VStr (raw ++ lit "X")) in
  let r40 := record_raw (str "B") (str "u2") (str "c2") (VStr raw) in
  let dup := record (str "C") (str "u1") (str "c3") in
  let l := [(KStr (lit "u1"), r41); (KStr (lit "u2"), r40); (KStr (lit "u1"), dup)] in
  let output raw :=
    deduplicate_and_format_sources
      (collection [record_raw (str "A") (str "u1") (str "c1") (VStr raw)])
      10 true in
  deduplicate_and_format_sources (VList [collection [r41]; VList [r40; dup]])
    10 true =
    (concat (warning_of <$> (minus_later_duplicates l).*2),
     Ok (strip (lit "Sources:" ++ nl ++ nl
                ++ concat (block_10 <$> (minus_later_duplicates l).*2))))
  /\ raw_content_block (VDict [(lit "raw_content", VStr (raw ++ lit "X"))]) 10 =
       ([], Ok (lit "Full source content limited to 10 tokens: "
                ++ limited_to_40 (raw ++ lit "X") ++ nl ++ nl))
  /\ limited_to_40 raw = raw
  /\ (limited_to_40 (raw ++ lit "X") =
        take 40 (raw ++ lit "X") ++ lit "... [truncated]"
      /\ length (take 40 (raw ++ lit "X")) = 40%nat)
  /\ (output raw =
        ([], Ok (strip (single_head (lit "A") (lit "u1") (lit "c1")
                        ++ raw ++ nl ++ nl)))
      /\ forall raw' c,
           raw = raw' ++ [c] -> is_whitespace c = false ->
           output raw =
             ([], Ok (single_head (lit "A") (lit "u1") (lit "c1") ++ raw)))
  /\ (output (raw ++ lit "X") =
        ([], Ok (single_head (lit "A") (lit "u1") (lit "c1")
                 ++ take 40 (raw ++ lit "X") ++ lit "... [truncated]"))
      /\ length (take 40 (raw ++ lit "X")) = 40%nat).
Proof.
  intros raw r41 r40 dup l output. split; [|split; [|split; [|split; [|split]]]].
  - apply (proj1 (proj2 (proj2 truncation_boundary))
             (VList [collection [r41]; VList [r40; dup]]) l).
    + reflexivity.
    + repeat constructor.
    + repeat constructor.
  - apply (proj1 (proj2 truncation_boundary)). reflexivity.
  - apply (proj1 (proj1 truncation_boundary raw)). vm_compute. lia.
  - apply (proj2 (proj1 truncation_boundary (raw ++ lit "X"))). vm_compute. lia.
  - apply (proj1 (proj2 (proj2 (proj2 truncation_boundary))
                    (lit "A") (lit "u1") (lit "c1") raw)).
    vm_compute. lia.
  - apply (proj2 (proj2 (proj2 (proj2 truncation_boundary))
                    (lit "A") (lit "u1") (lit "c1") (raw ++ lit "X"))).
    vm_compute. lia.
Defined.
